(** * xag_npn_resynthesis: NPN-indexed resynthesis of 4-input cuts

    A shallow embedding of
    [include/mockturtle/algorithms/node_resynthesis/xag_npn.hpp]:
    the canonical table [_repr] and its construction [build_classes], the
    class index [_repr_to_signal] and its construction [build_db], the
    library network [_db], the memoised copy [copy_db_entry] and the query
    operator [operator()].

    Truth tables over four variables are 16-bit numbers (bit [x] is the value
    of the function under the assignment whose [i]-th input is bit [i] of
    [x]); node identifiers and vector indices are natural numbers. The
    target network is a parameter with its construction operations; the
    collaborators that the header only includes (kitty's truth tables and
    canonizer, the index-list decoder, the node simulator) are modelled
    from their description and marked so.

    The file gives the definitions first and the properties after them. *)

From Stdlib Require Import NArith Lia Bool.
From stdpp Require Import base option list functions gmap.

Local Open Scope N_scope.

(** ** Bits *)

(** [bits_to_N [b0; b1; ...]] is the number whose bit [i] is [bi]. *)
Fixpoint bits_to_N (bs : list bool) : N :=
  match bs with
  | [] => 0
  | b :: bs' => if b then N.succ_double (bits_to_N bs') else N.double (bits_to_N bs')
  end.

(** The C expression [(v >> k) & 1], read as a condition. *)
Definition bit_at (v k : N) : bool := negb (N.land (N.shiftr v k) 1 =? 0).

(** The sixteen assignments of four inputs, in increasing order. *)
Definition assignments : list N := N.of_nat <$> seq 0 16.

(** ** Truth tables (kitty) *)

Module kitty.

(** Modelled from the spec: [kitty::dynamic_truth_table], the truth-table
    codec's value of run-time width: a number of variables and the
    [2^num_vars] function bits. *)
Record dynamic_truth_table := mk_dtt { num_vars : nat; dtt_bits : N }.

(** The value of a truth table of any width under an assignment given as
    the list of its input values, input 0 first. *)
Definition tt_eval (bits : N) (inputs : list bool) : bool :=
  N.testbit bits (bits_to_N inputs).

Definition dtt_eval (f : dynamic_truth_table) (inputs : list bool) : bool :=
  tt_eval (dtt_bits f) (take (num_vars f) inputs).

(** Modelled from the spec: complement of a [static_truth_table<4>]
    (operator [~]), which keeps the value within 16 bits. *)
Definition tt_not (t : N) : N := N.lxor t 0xFFFF.

(** Modelled from the spec: [kitty::nth_var], the truth table of the
    projection onto input [i], used by the simulator for primary input
    [i]. *)
Definition nth_var (i : nat) : N :=
  bits_to_N ((λ x, N.testbit x (N.of_nat i)) <$> assignments).

(** What [kitty::extend_to<4>] does with a function of more than four
    inputs. The codec is described for the extension from narrower widths
    only, so the embedding leaves this open and takes it as a parameter:
    [None] when the call does not come back, [Some t] when it comes back
    with the table [t]. *)
Class wide_extension := extend_wide : dynamic_truth_table → option N.

(** Modelled from the spec: [kitty::extend_to<4>], extension from narrower
    widths: the function keeps its value and ignores the added inputs. A
    wider function is left to the parameter. *)
Definition extend_to4 {wide : wide_extension} (f : dynamic_truth_table) : option N :=
  if decide (num_vars f ≤ 4)%nat
  then Some (bits_to_N ((λ x, N.testbit (dtt_bits f)
                               (N.land x (N.ones (N.of_nat (num_vars f)))))
                        <$> assignments))
  else extend_wide f.

(** Modelled from the spec: [kitty::next_inplace] and [kitty::is_const0] on
    a [static_truth_table<4>]: the successor in the fixed enumeration order
    of all [2^16] functions, wrapping around to the constant-0 function. *)
Definition next_inplace (t : N) : N := N.land (t + 1) 0xFFFF.
Definition is_const0 (t : N) : bool := t =? 0.

(** An NPN transform [(representative, polarity, permutation)], as the
    tuple [std::tuple<static_truth_table<4>, uint32_t, std::vector<uint8_t>>]. *)
Definition npn_config : Type := N * N * list nat.

(** The assignment seen by the representative when the original function
    is given assignment [x]: input [i] of the representative reads
    original input [perm[i]], complemented when bit [perm[i]] of the
    polarity is set. *)
Definition permute_index (phase : N) (perm : list nat) (x : N) : N :=
  bits_to_N ((λ i, let p := N.of_nat (perm !!! i) in
                   xorb (N.testbit x p) (N.testbit phase p)) <$> seq 0 4).

(** The inverse reading: the assignment of the original function that the
    representative's assignment [y] comes from. *)
Definition unpermute_index (phase : N) (perm : list nat) (y : N) : N :=
  fold_right (λ i acc,
                let p := N.of_nat (perm !!! i) in
                if xorb (N.testbit y (N.of_nat i)) (N.testbit phase p)
                then N.lor (N.shiftl 1 p) acc else acc)
             0 (seq 0 4).

(** Modelled from the spec: [kitty::create_from_npn_config], "applying
    permutation then polarity to the representative": the output is
    complemented when bit 4 of the polarity is set. *)
Definition create_from_npn_config (c : npn_config) : N :=
  let '(repr, phase, perm) := c in
  bits_to_N ((λ x, xorb (N.testbit repr (permute_index phase perm x))
                        (N.testbit phase 4)) <$> assignments).

(** The sixteen function bits of [t], bit 0 first. *)
Definition tt_bools (t : N) : list bool := N.testbit t <$> assignments.

(** All orderings of the four inputs. *)
Fixpoint insert_everywhere (a : nat) (l : list nat) : list (list nat) :=
  match l with
  | [] => [[a]]
  | b :: l' => (a :: l) :: ((λ r, b :: r) <$> insert_everywhere a l')
  end.

Fixpoint orderings (l : list nat) : list (list nat) :=
  match l with
  | [] => [[]]
  | a :: l' => orderings l' ≫= insert_everywhere a
  end.

(** The 384 input transforms: every ordering of the inputs with every
    input polarity, each with the sixteen assignments of the original
    function that the representative's assignments 15, 14, ..., 0 come
    from (the most significant function bit first). *)
Definition input_transforms : list (N * list nat * list nat) :=
  Eval vm_compute in
    perm ← orderings [0; 1; 2; 3]%nat;
    phase ← N.of_nat <$> seq 0 16;
    [(phase, perm,
      reverse ((λ y, N.to_nat (unpermute_index phase perm y)) <$> assignments))].

(** The bits, most significant first, of the function that the input
    transform with sources [high] maps to the function with bits [tb],
    complemented when [neg]. *)
Definition candidate_bits (tb : list bool) (neg : bool) (high : list nat) : list bool :=
  (λ src, xorb (nth src tb false) neg) <$> high.

(** Whether that function is numerically below the one with bits [best]:
    the two are compared from the most significant bit down, up to the
    first bit in which they differ. *)
Fixpoint candidate_below (tb : list bool) (neg : bool) (high : list nat)
    (best : list bool) : bool :=
  match high, best with
  | src :: high', b :: best' =>
      if eqb (xorb (nth src tb false) neg) b
      then candidate_below tb neg high' best'
      else b
  | _, _ => false
  end.

(** The search keeps the transform tried when its function is below the
    best one found so far; the output polarity is bit 4. *)
Definition try_transform (tb : list bool) (neg : bool) (phase : N) (perm high : list nat)
    (best : list bool * N * list nat) : list bool * N * list nat :=
  if candidate_below tb neg high best.1.1
  then (candidate_bits tb neg high, if neg then N.lor phase 16 else phase, perm)
  else best.

(** Modelled from the spec: [kitty::exact_npn_canonization], the exact
    canonizer: an exhaustive search over the group of input permutations
    and input/output complementations that returns the numerically
    minimal function of the class together with a transform that maps it
    back to the argument. Each input transform is tried with the output
    kept and with the output complemented. *)
Definition exact_npn_canonization (t : N) : npn_config :=
  let tb := tt_bools t in
  let '(bits, phase, perm) :=
    fold_left (λ best '(phase, perm, high),
                 try_transform tb true phase perm high
                   (try_transform tb false phase perm high best))
              input_transforms (reverse tb, 0, [0; 1; 2; 3]%nat) in
  (bits_to_N (reverse bits), phase, perm).

End kitty.

(** ** The library network [_db] *)

Module db.

(** A library signal: a node identifier with a complement flag. *)
Record signal := mk_signal { index : nat; complement : bool }.

(** A library node: the constant, a primary input, or a two-input AND or
    XOR gate with its two fanin edges. *)
Inductive node :=
| Const
| Pi (i : nat)
| And (a b : signal)
| Xor (a b : signal).

(** The network: its nodes in creation order; a node's identifier is its
    position. *)
Abbreviation network := (list node).

Definition get_node (s : signal) : nat := index s.
Definition is_complemented (s : signal) : bool := complement s.
Definition make_signal (n : nat) : signal := mk_signal n false.
Definition negate (s : signal) : signal := mk_signal (index s) (negb (complement s)).
Definition size (d : network) : nat := length d.

Definition is_xor (d : network) (n : nat) : bool :=
  match d !! n with Some (Xor _ _) => true | _ => false end.

Definition fanins (nd : node) : list signal :=
  match nd with
  | Const | Pi _ => []
  | And a b | Xor a b => [a; b]
  end.

(** [foreach_node]: the node identifiers in increasing order. *)
Definition nodes (d : network) : list nat := seq 0 (length d).

(** A literal of the index list: [lit = 2 * node_id + complement_bit]. *)
Definition signal_of_literal (lit : N) : signal :=
  mk_signal (N.to_nat (N.shiftr lit 1)) (N.odd lit).

(** Modelled from the spec: the gate loop of [decode] on an
    [xag_index_list] (utils/index_list.hpp): one gate per pair of
    literals, in array order, with the next free identifier; a literal
    that refers to a node not yet defined is rejected, and so is a
    truncated pair. The kind of a gate follows the index-list convention
    of the reference decoder: the pair encodes an XOR when its first
    literal is the larger one, and an AND otherwise. *)
Fixpoint decode_gates (gates : nat) (body : list N) (d : network) : option network :=
  match gates with
  | O => Some d
  | S gates' =>
      match body with
      | lit0 :: lit1 :: rest =>
          let a := signal_of_literal lit0 in
          let b := signal_of_literal lit1 in
          if decide (index a < length d ∧ index b < length d)%nat
          then decode_gates gates' rest
                 (d ++ [if lit1 <? lit0 then Xor a b else And a b])
          else None
      | _ => None
      end
  end.

(** Modelled from the spec: [decode] (utils/index_list.hpp). Element 0
    packs [(gate_count << 16) | (reserved_flag << 8) | primary_input_count];
    node 0 is the constant, nodes [1..primary_input_count] are the
    primary inputs, and the gates follow. *)
Definition decode (encoding : list N) : option network :=
  match encoding with
  | [] => None
  | header :: body =>
      let num_pis := N.to_nat (N.land header 0xFF) in
      let num_gates := N.to_nat (N.shiftr header 16) in
      decode_gates num_gates body (Const :: (Pi <$> seq 0 num_pis))
  end.

(** The truth table of a signal, given the tables of the nodes. *)
Definition signal_value (values : list N) (s : signal) : N :=
  let v := values !!! index s in
  if complement s then kitty.tt_not v else v.

Definition node_value (values : list N) (nd : node) : N :=
  match nd with
  | Const => 0
  | Pi i => kitty.nth_var i
  | And a b => N.land (signal_value values a) (signal_value values b)
  | Xor a b => N.lxor (signal_value values a) (signal_value values b)
  end.

(** One pass over the nodes in creation order that gives every node a
    value computed from the values of the nodes before it. *)
Definition topo_pass {V : Type} (f : list V → node → V) (d : network) : list V :=
  fold_left (λ values nd, values ++ [f values nd]) d [].

(** Modelled from the spec: [simulate_nodes<static_truth_table<4>>]
    (algorithms/simulation.hpp): one pass in topological order that
    gives every node its truth table over the four primary inputs,
    combining the fanin tables by AND or XOR after applying each
    fanin's complement flag. *)
Definition simulate_nodes (d : network) : list N := topo_pass node_value d.

(** The depth of the subcircuit below a node: 0 for the constant and the
    primary inputs, one more than the deeper fanin for a gate. *)
Definition node_level (levels : list nat) (nd : node) : nat :=
  match nd with
  | Const | Pi _ => 0
  | And a b | Xor a b => S (levels !!! index a `max` levels !!! index b)
  end.

Definition level (d : network) (n : nat) : nat := topo_pass node_level d !!! n.

(** Every fanin refers to a node defined before the gate. *)
Definition topological (d : network) : Prop :=
  ∀ n nd s, d !! n = Some nd → s ∈ fanins nd → (index s < n)%nat.

End db.

(** The precomputed library of subcircuits, an [xag_index_list]. *)
Definition subgraphs : list N :=
  N.lor (N.lor (N.shiftl 1780 16) (N.shiftl 0 8)) 4 :: [
    2; 4; 2; 5; 3; 4; 3; 5; 4; 2; 2; 6; 2; 7; 3; 6; 3; 7; 6; 2; 4; 6; 4; 7;
    5; 6; 5; 7; 6; 4; 2; 8; 2; 9; 3; 8; 3; 9; 8; 2; 4; 8; 4; 9; 5; 8; 5; 9;
    8; 4; 6; 8; 6; 9; 7; 8; 7; 9; 8; 6; 5; 11; 6; 10; 6; 11; 7; 10; 7; 11;
    10; 6; 8; 10; 8; 11; 9; 10; 9; 11; 10; 8; 6; 12; 6; 13; 7; 12; 7; 13; 12;
    6; 9; 12; 9; 13; 12; 8; 5; 15; 6; 14; 6; 15; 7; 14; 7; 15; 14; 6; 8; 14;
    8; 15; 9; 14; 9; 15; 14; 8; 6; 16; 6; 17; 7; 16; 7; 17; 16; 6; 8; 16; 8;
    17; 9; 16; 9; 17; 16; 8; 6; 18; 6; 19; 7; 18; 7; 19; 18; 6; 8; 19; 9; 18;
    9; 19; 18; 8; 4; 20; 4; 21; 5; 20; 7; 21; 8; 20; 9; 21; 20; 8; 11; 21;
    20; 10; 15; 21; 20; 14; 17; 21; 19; 21; 4; 22; 4; 23; 5; 22; 9; 22; 9;
    23; 22; 8; 22; 12; 15; 23; 17; 23; 18; 23; 4; 24; 7; 25; 9; 25; 24; 8;
    11; 25; 13; 25; 15; 25; 24; 14; 19; 25; 4; 26; 4; 27; 5; 26; 5; 27; 26;
    4; 8; 27; 9; 26; 9; 27; 26; 8; 11; 27; 13; 27; 17; 27; 26; 16; 19; 27; 4;
    28; 28; 4; 9; 28; 9; 29; 28; 8; 11; 28; 11; 29; 13; 29; 17; 29; 18; 29;
    19; 28; 19; 29; 2; 30; 2; 31; 3; 30; 5; 31; 7; 31; 8; 30; 8; 31; 9; 30;
    9; 31; 30; 8; 13; 31; 17; 31; 19; 31; 23; 31; 27; 31; 29; 31; 2; 32; 2;
    33; 5; 33; 32; 6; 8; 33; 32; 8; 13; 33; 17; 33; 21; 33; 25; 33; 27; 33;
    28; 33; 32; 28; 2; 34; 3; 35; 34; 4; 7; 35; 34; 8; 11; 35; 15; 35; 19;
    35; 34; 18; 23; 35; 27; 35; 33; 35; 2; 36; 2; 37; 3; 36; 3; 37; 36; 2; 8;
    36; 8; 37; 9; 36; 9; 37; 36; 8; 11; 37; 15; 37; 17; 37; 18; 37; 19; 37;
    21; 37; 25; 37; 27; 37; 29; 37; 2; 38; 3; 38; 38; 2; 8; 38; 8; 39; 9; 38;
    9; 39; 38; 8; 11; 38; 11; 39; 15; 38; 15; 39; 17; 39; 18; 38; 19; 38; 19;
    39; 21; 39; 23; 38; 25; 39; 27; 38; 27; 39; 28; 38; 29; 38; 29; 39; 4;
    40; 4; 41; 6; 40; 9; 41; 13; 41; 15; 41; 19; 41; 23; 41; 25; 41; 29; 41;
    31; 41; 33; 41; 35; 41; 36; 41; 37; 41; 40; 36; 39; 41; 4; 42; 4; 43; 5;
    42; 6; 43; 7; 42; 17; 43; 27; 43; 30; 43; 31; 42; 31; 43; 32; 43; 33; 42;
    42; 32; 36; 43; 37; 42; 37; 43; 42; 36; 39; 42; 39; 43; 42; 38; 7; 45; 9;
    45; 11; 45; 21; 45; 31; 45; 44; 32; 36; 44; 36; 45; 39; 45; 44; 38; 4;
    46; 4; 47; 5; 46; 6; 47; 7; 46; 46; 6; 13; 47; 19; 47; 23; 47; 31; 46;
    46; 30; 32; 47; 33; 47; 34; 47; 35; 47; 36; 46; 36; 47; 37; 46; 37; 47;
    46; 36; 38; 47; 39; 47; 4; 49; 48; 4; 6; 49; 48; 6; 15; 48; 19; 48; 19;
    49; 25; 48; 28; 49; 29; 48; 29; 49; 31; 49; 33; 48; 35; 48; 36; 49; 39;
    48; 48; 38; 2; 50; 2; 51; 6; 50; 7; 51; 9; 51; 13; 51; 19; 51; 21; 51;
    23; 51; 25; 51; 26; 51; 50; 26; 31; 51; 35; 51; 39; 51; 47; 51; 48; 51;
    2; 53; 3; 52; 6; 52; 6; 53; 17; 53; 22; 52; 23; 52; 23; 53; 26; 53; 27;
    53; 37; 53; 45; 53; 3; 55; 7; 55; 9; 55; 11; 55; 21; 55; 22; 55; 23; 55;
    26; 54; 26; 55; 31; 55; 43; 55; 53; 55; 2; 56; 3; 56; 6; 57; 7; 56; 56;
    6; 11; 57; 15; 57; 19; 57; 21; 56; 56; 20; 23; 57; 24; 57; 25; 56; 25;
    57; 26; 56; 27; 56; 27; 57; 56; 26; 33; 57; 41; 57; 2; 59; 3; 59; 58; 2;
    6; 59; 7; 58; 7; 59; 58; 6; 13; 59; 17; 59; 19; 59; 58; 20; 25; 59; 26;
    59; 27; 59; 58; 28; 35; 58; 58; 34; 38; 58; 38; 59; 39; 58; 43; 59; 47;
    59; 2; 60; 4; 60; 4; 61; 5; 61; 60; 4; 9; 61; 10; 61; 11; 61; 13; 61; 15;
    61; 16; 61; 17; 61; 18; 61; 19; 61; 23; 61; 27; 61; 33; 61; 39; 61; 43;
    61; 47; 61; 48; 61; 60; 52; 57; 61; 58; 61; 2; 63; 4; 62; 4; 63; 12; 63;
    13; 62; 17; 63; 19; 63; 27; 63; 37; 63; 45; 63; 55; 63; 3; 65; 5; 65; 9;
    65; 11; 65; 16; 64; 16; 65; 18; 65; 21; 65; 31; 65; 43; 65; 53; 65; 57;
    65; 63; 65; 2; 66; 2; 67; 3; 66; 3; 67; 66; 2; 4; 67; 5; 66; 66; 4; 10;
    67; 11; 66; 66; 10; 13; 67; 14; 67; 15; 67; 16; 66; 17; 66; 17; 67; 66;
    16; 18; 66; 19; 66; 19; 67; 66; 18; 25; 67; 35; 67; 41; 67; 51; 67; 57;
    67; 3; 69; 68; 2; 4; 68; 4; 69; 5; 68; 68; 4; 11; 69; 16; 69; 17; 68; 17;
    69; 68; 16; 18; 68; 18; 69; 68; 18; 23; 69; 27; 69; 68; 32; 37; 69; 39;
    68; 43; 69; 47; 69; 57; 69; 58; 68; 70; 68; 9; 73; 37; 73; 41; 73; 45;
    73; 51; 73; 55; 73; 61; 73; 65; 73; 74; 2; 74; 4; 74; 16; 74; 18; 33; 75;
    41; 75; 74; 46; 48; 75; 51; 75; 58; 75; 67; 75; 8; 77; 9; 77; 76; 8; 17;
    77; 35; 77; 51; 77; 61; 77; 68; 77; 69; 77; 76; 68; 78; 2; 8; 79; 9; 78;
    9; 79; 78; 8; 17; 79; 78; 16; 31; 79; 63; 79; 9; 80; 17; 80; 48; 81; 51;
    81; 6; 83; 7; 83; 17; 83; 68; 83; 75; 83; 7; 85; 21; 85; 6; 87; 17; 87;
    27; 87; 37; 87; 61; 87; 65; 87; 67; 87; 69; 87; 6; 89; 7; 88; 88; 6; 23;
    89; 88; 22; 25; 88; 33; 89; 61; 89; 90; 74; 9; 93; 15; 93; 9; 94; 9; 95;
    15; 95; 94; 14; 23; 95; 9; 97; 25; 97; 31; 97; 51; 97; 9; 99; 98; 14; 21;
    99; 35; 99; 45; 98; 47; 99; 98; 46; 69; 99; 7; 103; 33; 103; 35; 103; 37;
    103; 39; 103; 51; 103; 61; 103; 6; 105; 21; 104; 27; 104; 27; 105; 104;
    26; 31; 104; 37; 105; 104; 36; 55; 105; 65; 105; 69; 105; 108; 68; 112;
    4; 13; 113; 33; 113; 58; 112; 61; 115; 97; 115; 103; 115; 116; 4; 8; 117;
    9; 117; 57; 117; 116; 56; 63; 117; 13; 118; 13; 119; 55; 119; 61; 121;
    98; 121; 122; 2; 23; 125; 61; 125; 6; 127; 126; 6; 21; 126; 27; 127; 37;
    126; 37; 127; 126; 36; 65; 127; 77; 127; 126; 78; 128; 20; 77; 131; 9;
    133; 11; 133; 132; 10; 79; 133; 88; 133; 8; 135; 9; 134; 9; 135; 134; 8;
    11; 135; 43; 135; 134; 42; 53; 135; 61; 135; 63; 135; 73; 135; 87; 135;
    134; 86; 134; 88; 136; 4; 136; 6; 9; 136; 9; 137; 136; 8; 47; 137; 53;
    136; 55; 136; 57; 137; 61; 137; 63; 137; 69; 137; 136; 68; 75; 137; 89;
    137; 105; 137; 127; 137; 9; 139; 138; 8; 11; 138; 11; 139; 88; 139; 21;
    141; 31; 141; 43; 141; 63; 141; 73; 141; 133; 141; 7; 143; 25; 143; 27;
    143; 35; 143; 39; 143; 47; 143; 67; 143; 75; 143; 78; 143; 79; 143; 95;
    143; 97; 143; 101; 143; 131; 143; 6; 145; 7; 144; 7; 145; 144; 6; 73;
    145; 144; 78; 143; 145; 146; 4; 7; 146; 146; 6; 27; 146; 27; 147; 69;
    147; 135; 147; 7; 148; 148; 6; 25; 149; 61; 149; 81; 149; 101; 149; 131;
    149; 150; 90; 9; 153; 143; 153; 9; 154; 154; 62; 61; 157; 68; 157; 156;
    68; 9; 159; 158; 8; 61; 158; 68; 158; 83; 158; 143; 159; 149; 159; 68;
    161; 151; 161; 158; 161; 7; 162; 21; 164; 28; 164; 31; 164; 38; 164; 164;
    134; 166; 6; 68; 167; 166; 72; 158; 167; 9; 169; 168; 166; 170; 48; 174;
    58; 158; 177; 15; 178; 19; 178; 180; 14; 9; 186; 188; 8; 9; 192; 192; 68;
    68; 195; 194; 68; 104; 197; 202; 78; 9; 211; 210; 8; 216; 58; 41; 226;
    48; 226; 143; 229; 149; 229; 41; 230; 51; 230; 61; 231; 178; 235; 9; 236;
    236; 42; 236; 86; 236; 164; 238; 58; 178; 241; 19; 243; 159; 243; 186;
    243; 192; 243; 211; 243; 213; 243; 229; 243; 5; 244; 19; 249; 149; 249;
    159; 249; 186; 249; 192; 249; 211; 249; 143; 257; 149; 257; 243; 257;
    249; 257; 68; 261; 260; 180; 9; 263; 262; 8; 61; 262; 68; 262; 83; 262;
    143; 263; 149; 263; 177; 262; 243; 263; 249; 263; 19; 264; 264; 36; 38;
    264; 268; 4; 143; 271; 149; 271; 272; 58; 9; 280; 9; 283; 41; 282; 48;
    282; 51; 282; 58; 282; 61; 282; 68; 282; 282; 166; 9; 285; 286; 58; 290;
    68; 292; 58; 158; 295; 262; 295; 296; 38; 19; 300; 300; 36; 97; 300; 300;
    134; 199; 300; 223; 300; 300; 236; 252; 300; 302; 36; 302; 222; 246; 304;
    9; 308; 308; 68; 243; 308; 249; 308; 310; 58; 104; 312; 314; 58; 68; 317;
    316; 68; 126; 319; 320; 68; 322; 8; 326; 6; 326; 210; 330; 204; 246; 331;
    330; 248; 332; 48; 126; 335; 334; 128; 143; 339; 149; 339; 41; 341; 48;
    341; 346; 8; 348; 58; 350; 4; 350; 252; 178; 353; 352; 180; 41; 354; 41;
    356; 51; 356; 61; 357; 41; 359; 48; 359; 104; 361; 360; 106; 362; 106;
    364; 8; 300; 367; 300; 369; 9; 370; 370; 42; 370; 86; 370; 300; 41; 373;
    48; 373; 372; 48; 41; 374; 48; 374; 300; 375; 376; 104; 376; 178; 376;
    264; 376; 300; 19; 379; 21; 379; 31; 379; 48; 379; 101; 379; 103; 379;
    159; 379; 182; 379; 185; 379; 192; 379; 207; 379; 263; 379; 267; 379;
    271; 379; 277; 379; 301; 379; 308; 379; 339; 379; 369; 379; 374; 379; 3;
    380; 379; 381; 186; 382; 211; 382; 19; 385; 31; 385; 48; 385; 93; 385;
    101; 385; 103; 385; 153; 385; 159; 385; 173; 385; 185; 385; 192; 385;
    207; 385; 384; 210; 384; 254; 263; 385; 267; 385; 271; 385; 279; 385;
    308; 385; 339; 385; 343; 385; 374; 385; 41; 387; 178; 388; 388; 220; 390;
    248; 243; 393; 126; 396; 398; 128; 400; 8; 400; 148; 379; 403; 385; 403;
    404; 302; 379; 405; 385; 405; 143; 407; 149; 407; 243; 407; 249; 407; 9;
    409; 408; 8; 61; 408; 68; 408; 83; 408; 143; 409; 149; 409; 177; 408;
    243; 409; 249; 409; 295; 408; 379; 409; 385; 409; 19; 414; 28; 414; 414;
    134; 414; 236; 414; 370; 413; 415; 418; 2; 143; 418; 243; 418; 422; 48;
    51; 425; 41; 426; 48; 426; 9; 429; 379; 429; 411; 429; 418; 429; 385;
    431; 9; 432; 9; 435; 41; 434; 48; 434; 51; 434; 58; 434; 61; 434; 68;
    434; 436; 48; 41; 440; 48; 440; 51; 443; 9; 445; 411; 445; 418; 445; 9;
    446; 385; 449; 9; 451; 41; 450; 48; 450; 51; 450; 58; 450; 61; 450; 68;
    450; 68; 453; 158; 453; 262; 453; 408; 453; 454; 270; 454; 338; 454; 344;
    158; 457; 262; 457; 408; 457; 458; 134; 458; 154; 458; 236; 458; 370;
    334; 460; 373; 460; 397; 460; 35; 462; 39; 462; 239; 462; 313; 462; 360;
    462; 25; 464; 29; 464; 35; 464; 39; 464; 464; 78; 354; 466; 387; 466; 19;
    468; 39; 468; 307; 468; 328; 468; 385; 468; 19; 470; 39; 470; 379; 472;
    385; 472; 75; 474; 224; 474; 251; 474; 15; 476; 19; 476; 171; 476; 191;
    476; 208; 476; 478; 218; 478; 300; 15; 484; 19; 484; 25; 484; 29; 484;
    486; 134; 486; 236; 486; 370; 224; 489; 239; 489; 274; 489; 313; 489;
    360; 489; 379; 491; 385; 491; 307; 493; 328; 493; 35; 497; 39; 497; 39;
    499; 385; 499; 379; 503; 385; 503; 61; 511; 512; 298; 512; 414; 514; 416;
    13; 517; 287; 517; 367; 517; 518; 298; 379; 521; 51; 525; 61; 525; 385;
    525; 528; 134; 528; 154; 528; 236; 528; 370; 517; 535; 517; 541; 379;
    543; 501; 545; 7; 550; 51; 553; 462; 553; 464; 553; 497; 553; 507; 553;
    549; 553; 5; 554; 51; 557; 385; 557; 462; 557; 464; 557; 497; 557; 564;
    478; 385; 567; 462; 573; 497; 573; 578; 300; 580; 300; 472; 584; 51; 587;
    61; 587; 143; 588; 243; 588; 68; 591; 545; 591; 592; 6; 68; 593; 545;
    595; 596; 4; 39; 598; 600; 154; 151; 603; 39; 604; 537; 611; 379; 613;
    75; 614; 171; 616; 379; 619; 15; 620; 25; 620; 51; 620; 61; 620; 61; 623;
    259; 623; 395; 623; 561; 623; 68; 625; 158; 625; 262; 625; 408; 625; 626;
    420; 626; 438; 158; 629; 262; 629; 408; 629; 630; 46; 630; 56; 630; 162;
    632; 134; 632; 154; 632; 236; 632; 370; 636; 78; 553; 636; 557; 636; 574;
    640; 535; 642; 243; 648; 67; 650; 77; 650; 195; 650; 317; 650; 533; 650;
    562; 650; 650; 608; 652; 42; 48; 652; 103; 652; 201; 652; 491; 652; 495;
    652; 313; 654; 360; 654; 39; 656; 334; 659; 373; 659; 397; 659; 662; 512;
    33; 665; 191; 665; 208; 665; 569; 665; 614; 665; 670; 36; 670; 218; 15;
    677; 171; 677; 570; 677; 67; 679; 77; 679; 195; 679; 317; 679; 533; 679;
    562; 679; 669; 679; 334; 681; 397; 681; 243; 683; 484; 683; 665; 685;
    686; 134; 686; 154; 686; 236; 686; 370; 476; 691; 677; 691; 694; 522; 61;
    701; 468; 701; 499; 701; 700; 606; 313; 703; 360; 703; 704; 6; 379; 707;
    385; 707; 652; 707; 7; 708; 51; 711; 143; 711; 464; 711; 636; 711; 3;
    712; 51; 715; 143; 715; 149; 715; 464; 715; 636; 715; 623; 721; 722; 644;
    379; 725; 517; 726; 143; 729; 379; 731; 474; 732; 736; 630; 584; 739;
    583; 740; 638; 740; 61; 742; 468; 742; 499; 742; 334; 744; 397; 744; 249;
    749; 750; 6; 68; 751; 754; 46; 753; 755; 468; 757; 499; 757; 557; 757;
    758; 2; 39; 763; 151; 765; 61; 766; 61; 769; 243; 771; 39; 773; 61; 775;
    259; 775; 395; 775; 561; 775; 721; 775; 776; 508; 776; 564; 647; 781;
    782; 532; 784; 468; 39; 789; 557; 789; 158; 791; 262; 791; 408; 791; 158;
    793; 262; 793; 408; 793; 796; 66; 796; 178; 796; 264; 798; 504; 800; 134;
    800; 154; 800; 236; 800; 370; 802; 68; 804; 66; 135; 804; 237; 804; 371;
    804; 804; 416; 577; 804; 623; 804; 735; 804; 775; 804; 570; 806; 691;
    806; 808; 98; 535; 808; 808; 684; 726; 808; 810; 66; 814; 66; 689; 818;
    718; 818; 820; 568; 822; 42; 57; 822; 822; 502; 531; 822; 558; 822; 822;
    674; 737; 822; 824; 42; 48; 824; 103; 824; 201; 824; 491; 824; 495; 824;
    707; 824; 826; 32; 307; 828; 328; 828; 39; 830; 832; 570; 33; 834; 191;
    834; 208; 834; 836; 508; 354; 839; 387; 839; 840; 512; 35; 843; 224; 843;
    251; 843; 616; 843; 642; 845; 846; 126; 75; 849; 574; 849; 732; 849; 151;
    851; 689; 853; 718; 853; 57; 855; 531; 855; 558; 855; 737; 855; 354; 857;
    387; 857; 35; 859; 224; 859; 251; 859; 143; 861; 484; 861; 843; 863; 864;
    134; 864; 154; 864; 236; 864; 370; 474; 867; 640; 867; 849; 867; 143;
    871; 483; 873; 647; 873; 851; 873; 634; 875; 667; 875; 51; 877; 462; 877;
    497; 877; 307; 879; 328; 879; 33; 881; 191; 881; 208; 881; 882; 570; 884;
    4; 652; 887; 824; 887; 808; 889; 816; 889; 5; 890; 892; 480; 808; 895;
    816; 895; 61; 897; 243; 897; 816; 897; 3; 898; 61; 901; 243; 901; 468;
    901; 499; 901; 816; 901; 904; 810; 904; 814; 61; 907; 517; 908; 642; 908;
    243; 911; 476; 912; 677; 912; 804; 915; 650; 917; 679; 917; 916; 796;
    916; 810; 61; 919; 249; 919; 557; 919; 584; 919; 740; 919; 61; 920; 583;
    920; 739; 920; 804; 920; 804; 921; 924; 814; 61; 927; 61; 928; 634; 930;
    667; 930; 51; 932; 462; 932; 497; 932; 354; 934; 387; 934; 35; 936; 224;
    936; 251; 936; 938; 582; 149; 941; 919; 941; 942; 4; 947; 949; 950; 2;
    763; 953; 769; 953; 789; 953; 919; 953; 143; 955; 39; 959; 161; 965; 157;
    969; 195; 969; 763; 969; 769; 969; 789; 969; 957; 969; 39; 971; 591; 971;
    157; 975; 157; 979; 763; 979; 769; 979; 789; 979; 957; 979; 39; 981; 591;
    981; 157; 983; 988; 78; 135; 988; 237; 988; 371; 988; 407; 988; 988; 538;
    988; 696; 988; 868; 41; 991; 48; 991; 379; 992; 379; 995; 243; 996; 243;
    999; 143; 1000; 143; 1003; 1004; 488; 1006; 658; 83; 1009; 143; 1011;
    243; 1011; 379; 1011; 41; 1012; 48; 1012; 33; 1014; 685; 1014; 385; 1017;
    789; 1017; 33; 1018; 527; 1020; 1022; 46; 143; 1024; 1026; 6; 1028; 962;
    1030; 132; 9; 1033; 1032; 8; 243; 1033; 249; 1033; 379; 1033; 385; 1033;
    51; 1034; 35; 1036; 645; 1038; 957; 1043; 143; 1046; 379; 1046; 67; 1049;
    283; 1049; 435; 1049; 451; 1049; 1050; 810; 133; 1052; 1052; 810; 73;
    1055; 1054; 132; 763; 1055; 769; 1055; 789; 1055; 919; 1055; 9; 1057;
    1056; 8; 9; 1058; 143; 1059; 51; 1061; 645; 1063; 1064; 154; 161; 1067;
    1068; 796; 1070; 178; 1072; 18; 1072; 716; 1074; 88; 1074; 126; 1076; 74;
    1080; 16; 61; 1083; 1084; 812; 137; 1087; 553; 1089; 557; 1089; 711;
    1089; 715; 1089; 33; 1091; 685; 1091; 1090; 854; 23; 1093; 527; 1093;
    1092; 852; 1094; 156; 137; 1097; 1098; 582; 957; 1101; 143; 1103; 761;
    1103; 787; 1103; 1104; 810; 83; 1107; 149; 1107; 919; 1107; 379; 1108;
    1110; 794; 379; 1113; 243; 1114; 1114; 672; 137; 1116; 1120; 36; 243;
    1122; 1124; 126; 1126; 124; 1126; 546; 1126; 660; 1128; 58; 9; 1131;
    1132; 58; 31; 1134; 143; 1136; 379; 1136; 9; 1138; 493; 1140; 1142; 796;
    61; 1145; 143; 1147; 379; 1147; 9; 1149; 61; 1151; 489; 1153; 489; 1154;
    897; 1154; 945; 1157; 1158; 794; 665; 1160; 843; 1162; 1164; 8; 51; 1166;
    61; 1166; 39; 1168; 39; 1170; 507; 1170; 462; 1173; 497; 1173; 1174; 796;
    31; 1176; 197; 1179; 197; 1180; 897; 1180; 27; 1182; 381; 1185; 39; 1189;
    39; 1191; 507; 1191; 945; 1193; 41; 1197; 48; 1197; 1198; 48; 1200; 48;
    761; 1203; 787; 1203; 747; 1204; 1206; 8; 379; 1208; 51; 1210; 1212; 336;
    1214; 154; 659; 1217; 659; 1218; 889; 1218; 747; 1221; 9; 1223; 61; 1225;
    61; 1227; 1228; 98; 61; 1231; 39; 1232; 1234; 324; 693; 1236; 143; 1239;
    157; 1239; 77; 1241; 83; 1241; 195; 1241; 317; 1241; 453; 1241; 625;
    1241; 37; 1242; 51; 1245; 121; 1245; 21; 1246; 319; 1249; 319; 1250; 889;
    1250; 693; 1253; 1254; 6; 9; 1261; 1260; 8; 11; 1262; 79; 1262; 1262;
    134; 9; 1264; 161; 1267; 9; 1268; 1270; 134; 31; 1273; 47; 1273; 73;
    1273; 111; 1273; 133; 1273; 145; 1273; 169; 1273; 211; 1273; 215; 1273;
    285; 1273; 289; 1273; 565; 1273; 915; 1273; 804; 1275; 73; 1276; 169;
    1276; 285; 1276; 31; 1279; 41; 1279; 51; 1279; 61; 1279; 133; 1279; 143;
    1279; 211; 1279; 61; 1280; 301; 1283; 179; 1287; 11; 1288; 903; 1288; 89;
    1291; 9; 1292; 67; 1295; 133; 1298; 9; 1301; 1302; 8; 650; 1305; 679;
    1305; 1304; 796; 1306; 814; 1308; 6; 261; 1309; 591; 1309; 665; 1310;
    493; 1313; 665; 1315; 493; 1316; 89; 1318; 11; 1321; 903; 1321; 11; 1323;
    9; 1327; 61; 1328; 261; 1331; 405; 1333; 11; 1334; 83; 1339; 9; 1340;
    143; 1341; 665; 1345; 493; 1347; 39; 1349; 75; 1351; 61; 1353; 1354; 802;
    1356; 56; 1356; 144; 97; 1358; 199; 1358; 301; 1358; 367; 1358; 381;
    1358; 713; 1358; 899; 1358; 1360; 16; 179; 1362; 47; 1364; 39; 1366; 75;
    1368; 67; 1370; 1372; 144; 1374; 16; 25; 1378; 245; 1382; 555; 1382; 891;
    1382; 143; 1385; 497; 1385; 804; 1387; 1388; 816; 143; 1391; 497; 1391;
    379; 1392; 143; 1394; 1396; 78; 39; 1399; 650; 1401; 679; 1401; 1400;
    796; 39; 1403; 1404; 796; 233; 1407; 699; 1407; 11; 1409; 245; 1411; 555;
    1411; 891; 1411; 61; 1413].

(** ** The target network [Ntk] *)

(** The operations of the target network that the engine uses (the static
    assertions of the constructor): the constant signal, the creation of
    AND and XOR gates and of a negation. Creation threads the network.
    [default_signal] is the value-initialised [signal<Ntk>{}]. *)
Class Network (Ntk signal : Type) := {
  get_constant : Ntk → bool → signal;
  create_and : signal → signal → Ntk → signal * Ntk;
  create_xor : signal → signal → Ntk → signal * Ntk;
  create_not : signal → Ntk → signal * Ntk;
  default_signal : signal
}.

(** A network of expressions over named leaves, an instance of the
    capability contract: a signal is the expression it computes, and the
    network records the gates created so far. *)
Module xnet.

Inductive signal :=
| const (b : bool)
| leaf (i : nat)
| and_gate (a b : signal)
| xor_gate (a b : signal)
| inverter (a : signal).

Abbreviation network := (list signal).

Fixpoint eval (s : signal) (env : nat → bool) : bool :=
  match s with
  | const b => b
  | leaf i => env i
  | and_gate a b => eval a env && eval b env
  | xor_gate a b => xorb (eval a env) (eval b env)
  | inverter a => negb (eval a env)
  end.

#[global] Instance ops : Network network signal := {|
  get_constant _ b := const b;
  create_and a b ntk := (and_gate a b, ntk ++ [and_gate a b]);
  create_xor a b ntk := (xor_gate a b, ntk ++ [xor_gate a b]);
  create_not a ntk := (inverter a, ntk);
  default_signal := const false
|}.

End xnet.

(** A network together with the number of AND and XOR gates that it has
    been asked to create: the same operations, counted. A negation is not
    a gate. *)
Definition counted {Ntk signal : Type} (net : Network Ntk signal) :
    Network (Ntk * nat) signal := {|
  get_constant ntk b := get_constant ntk.1 b;
  create_and a b ntk :=
    let '(s, ntk') := create_and a b ntk.1 in (s, (ntk', S ntk.2));
  create_xor a b ntk :=
    let '(s, ntk') := create_xor a b ntk.1 in (s, (ntk', S ntk.2));
  create_not a ntk :=
    let '(s, ntk') := create_not a ntk.1 in (s, (ntk', ntk.2));
  default_signal := default_signal
|}.

(** ** The engine *)

(** The canonical table: [_repr[t]] for a truth table [t]. *)
Abbreviation repr_table := (N → kitty.npn_config).

(** The class index: representative to library signals. *)
Abbreviation class_index := (gmap N (list db.signal)).

(** The state of a constructed [xag_npn_resynthesis]. *)
Record engine := mk_engine {
  _repr : repr_table;
  _repr_to_signal : class_index;
  _db : db.network
}.

(** [_repr( 1u << 16u )]: every entry value-initialised. *)
Definition initial_table : repr_table := λ _, (0, 0, []).

(** [build_classes]: the do-while loop, one canonization per function,
    until [next_inplace] wraps around to the constant-0 function; the loop
    is given as many iterations as there are functions. *)
Fixpoint build_classes_loop (fuel : nat) (t : N) (tbl : repr_table) : option repr_table :=
  match fuel with
  | O => None
  | S fuel' =>
      let tbl' := <[t := kitty.exact_npn_canonization t]> tbl in
      let t' := kitty.next_inplace t in
      if kitty.is_const0 t' then Some tbl' else build_classes_loop fuel' t' tbl'
  end.

Definition build_classes : option repr_table :=
  build_classes_loop (N.to_nat 65536) 0 initial_table.

(** Registration of a signal under a class key: a new entry when the key
    is absent ([count(key) == 0]), [push_back] otherwise. *)
Definition register (key : N) (s : db.signal) (idx : class_index) : class_index :=
  match idx !! key with
  | None => <[key := [s]]> idx
  | Some sigs => <[key := sigs ++ [s]]> idx
  end.

(** The body of the [foreach_node] loop of [build_db]. *)
Definition classify_node (tbl : repr_table) (sim_res : list N)
    (idx : class_index) (n : nat) : class_index :=
  let s := sim_res !!! n in
  if (tbl s).1.1 =? s
  then register s (db.make_signal n) idx
  else
    let f := kitty.tt_not s in
    if (tbl f).1.1 =? f
    then register f (db.negate (db.make_signal n)) idx
    else idx.

Definition classify (tbl : repr_table) (d : db.network) : class_index :=
  fold_left (classify_node tbl (db.simulate_nodes d)) (db.nodes d) ∅.

(** [build_db]: decode the library, simulate it, classify every node. *)
Definition build_db (tbl : repr_table) (encoding : list N) : option (db.network * class_index) :=
  d ← db.decode encoding;
  Some (d, classify tbl d).

(** The constructor, for a library given by its index list. *)
Definition make_engine (tbl : repr_table) (encoding : list N) : option engine :=
  '(d, idx) ← build_db tbl encoding;
  Some (mk_engine tbl idx d).

Definition xag_npn_resynthesis : option engine :=
  tbl ← build_classes;
  make_engine tbl subgraphs.

(** What a call can come to when it does not return: an extension of the
    function by the truth-table codec that does not come back, an access
    outside a buffer, or a recursion that does not come back. *)
Inductive fault := no_extension | out_of_bounds | no_return.

Inductive outcome (R : Type) :=
| Returned (r : R)
| Faulted (f : fault).
Arguments Returned {R} r.
Arguments Faulted {R} f.

(** [std::copy( first, last, d_first )] into a buffer of fixed size: an
    element written past the end of the buffer is an access out of
    bounds. *)
Fixpoint std_copy {T : Type} (src : list T) (dst : list T) (pos : nat) : option (list T) :=
  match src with
  | [] => Some dst
  | x :: src' =>
      if decide (pos < length dst)%nat
      then std_copy src' (<[pos := x]> dst) (S pos)
      else None
  end.

(** A loop over a list with the position of each element, threading a
    state; [None] when the body does not return. *)
Fixpoint foreach_indexed {T St : Type} (body : T → nat → St → option St)
    (l : list T) (i : nat) (s : St) : option St :=
  match l with
  | [] => Some s
  | x :: l' => s' ← body x i s; foreach_indexed body l' (S i) s'
  end.

Section query.

Context {Ntk signal : Type} {net : Network Ntk signal} {A : Type}.
Context {wide : kitty.wide_extension}.
Variable E : engine.

(** [std::unordered_map::insert]: the entry is added unless the key is
    present. *)
Definition map_insert (k : nat) (v : signal) (m : gmap nat signal) : gmap nat signal :=
  match m !! k with
  | Some _ => m
  | None => <[k := v]> m
  end.

(** [c ? ntk.create_not( s ) : s] *)
Definition complement_if (c : bool) (s : signal) (ntk : Ntk) : signal * Ntk :=
  if c then create_not s ntk else (s, ntk).

(** [copy_db_entry]: the memoised recursive copy of library node [n] into
    the target network; the state is the network and the map [db_to_ntk],
    both passed by reference. [None]: the recursion did not come back
    within [fuel] nested calls, or [n] is not a node of the library. *)
Fixpoint copy_db_entry (fuel : nat) (n : nat) (st : Ntk * gmap nat signal)
    : option (signal * (Ntk * gmap nat signal)) :=
  match fuel with
  | O => None
  | S fuel' =>
      match st.2 !! n with
      | Some s => Some (s, st)
      | None =>
          nd ← _db E !! n;
          '(fanin, (ntk1, m1)) ←
            foreach_indexed
              (λ f i '(fanin, st0),
                 '(ntk_f, (ntk', m')) ← copy_db_entry fuel' (db.get_node f) st0;
                 let '(s, ntk'') := complement_if (db.is_complemented f) ntk_f ntk' in
                 Some (<[i := s]> fanin, (ntk'', m')))
              (db.fanins nd) 0%nat ([default_signal; default_signal], st);
          let '(f, ntk2) :=
            if db.is_xor (_db E) n
            then create_xor (nth 0 fanin default_signal) (nth 1 fanin default_signal) ntk1
            else create_and (nth 0 fanin default_signal) (nth 1 fanin default_signal) ntk1 in
          Some (f, (ntk2, map_insert n f m1))
      end
  end.

(** The binding of primary input [i] of the library (node [i + 1]):
    [pis[perm[i]]], negated when [phase >> perm[i] & 1]. *)
Definition seed_input (phase : N) (perm : list nat) (pis : list signal)
    (i : nat) (st : Ntk * gmap nat signal) : option (Ntk * gmap nat signal) :=
  p ← perm !! i;
  s ← pis !! p;
  let '(v, ntk') := complement_if (bit_at phase (N.of_nat p)) s st.1 in
  Some (ntk', map_insert (i + 1) v st.2).

(** The query context: the leaves copied into the buffer [pis] of four
    signals, and [db_to_ntk] seeded with the constant and the four primary
    inputs. *)
Definition query_context (ntk : Ntk) (phase : N) (perm : list nat)
    (leaves : list signal) : outcome (Ntk * gmap nat signal) :=
  match std_copy leaves (replicate 4 (get_constant ntk false)) 0 with
  | None => Faulted out_of_bounds
  | Some pis =>
      match foreach_indexed (λ i _ st, seed_input phase perm pis i st)
              (seq 0 4) 0%nat (ntk, map_insert 0 (get_constant ntk false) ∅) with
      | None => Faulted out_of_bounds
      | Some st => Returned st
      end
  end.

(** The result of a query: the network, the state of the callback, and the
    calls made to the callback: each offered signal with the answer. *)
Definition query_result : Type := Ntk * A * list (signal * bool).

(** The loop over the candidates of the class. The callback reads the
    network and keeps a state of its own. Each copy is given as many
    nested calls as the library has nodes. *)
Fixpoint run_candidates (fn : Ntk → signal → A → bool * A) (phase : N)
    (cands : list db.signal) (st : Ntk * gmap nat signal) (a : A)
    (calls : list (signal * bool)) : outcome query_result :=
  match cands with
  | [] => Returned (st.1, a, calls)
  | cand :: rest =>
      match copy_db_entry (db.size (_db E)) (db.get_node cand) st with
      | None => Faulted no_return
      | Some (f, (ntk1, m1)) =>
          let '(out, ntk2) :=
            complement_if (xorb (db.is_complemented cand) (bit_at phase 4)) f ntk1 in
          let '(ok, a') := fn ntk2 out a in
          if ok
          then run_candidates fn phase rest (ntk2, m1) a' (calls ++ [(out, ok)])
          else Returned (ntk2, a', calls ++ [(out, ok)])
      end
  end.

(** [operator()]: the query. *)
Definition operator (ntk : Ntk) (function : kitty.dynamic_truth_table)
    (leaves : list signal) (fn : Ntk → signal → A → bool * A) (a : A)
    : outcome query_result :=
  match kitty.extend_to4 function with
  | None => Faulted no_extension
  | Some t =>
      let '(repr, phase, perm) := _repr E t in
      match _repr_to_signal E !! repr with
      | None => Returned (ntk, a, [])
      | Some cands =>
          match query_context ntk phase perm leaves with
          | Faulted e => Faulted e
          | Returned st => run_candidates fn phase cands st a []
          end
      end
  end.

End query.

(** The engine [E] with another class index. *)
Definition with_index (E : engine) (idx : class_index) : engine :=
  mk_engine (_repr E) idx (_db E).

(** ** The meaning of target signals *)

Section network_laws.

Context {Ntk signal : Type} {net : Network Ntk signal} {env : Type}.
Variable valid : Ntk → signal → Prop.
Variable sem : Ntk → signal → env → bool.

(** [ntk'] keeps every signal of [ntk], with its function. *)
Definition extends (ntk ntk' : Ntk) : Prop :=
  ∀ s, valid ntk s → valid ntk' s ∧ ∀ e, sem ntk' s e = sem ntk s e.

(** What simulation of the target network assumes of its construction
    operators: a created gate computes the AND, the XOR or the negation of
    its operands, and creation keeps the signals that exist. *)
Record network_laws : Prop := {
  constant_valid : ∀ ntk b, valid ntk (get_constant ntk b);
  constant_sem : ∀ ntk b e, sem ntk (get_constant ntk b) e = b;
  and_law : ∀ a b ntk s ntk',
    create_and a b ntk = (s, ntk') → valid ntk a → valid ntk b →
    extends ntk ntk' ∧ valid ntk' s ∧ ∀ e, sem ntk' s e = sem ntk a e && sem ntk b e;
  xor_law : ∀ a b ntk s ntk',
    create_xor a b ntk = (s, ntk') → valid ntk a → valid ntk b →
    extends ntk ntk' ∧ valid ntk' s ∧ ∀ e, sem ntk' s e = xorb (sem ntk a e) (sem ntk b e);
  not_law : ∀ a ntk s ntk',
    create_not a ntk = (s, ntk') → valid ntk a →
    extends ntk ntk' ∧ valid ntk' s ∧ ∀ e, sem ntk' s e = negb (sem ntk a e)
}.

(** The values of the four cut inputs under [e]: the supplied leaves, and
    constant false at the positions beyond them. *)
Definition cut_inputs (ntk : Ntk) (leaves : list signal) (e : env) : list bool :=
  (λ l, sem ntk l e) <$> (leaves ++ replicate (4 - length leaves) (get_constant ntk false)).

(** The map of a query agrees with the simulation of the library [d] when
    [inputs e] is the assignment of the library's primary inputs under
    [e]: every node without fanins is in the map, and every node in the
    map is bound to a signal of the network that computes the node's
    table at that assignment. *)
Definition context_sound (d : db.network) (inputs : env → N)
    (st : Ntk * gmap nat signal) : Prop :=
  (∀ k nd, d !! k = Some nd → db.fanins nd = [] → is_Some (st.2 !! k)) ∧
  (∀ k s, st.2 !! k = Some s →
     valid st.1 s ∧
     ∀ e, sem st.1 s e = N.testbit (db.simulate_nodes d !!! k) (inputs e)).

End network_laws.

(** ** The library of the source, constructed *)

(** The decoded library with its class index, as [build_db] leaves them. *)
Definition library : option (db.network * class_index) :=
  Eval vm_compute in build_db kitty.exact_npn_canonization subgraphs.

Definition library_engine : engine :=
  match library with
  | Some (d, idx) => mk_engine kitty.exact_npn_canonization idx d
  | None => mk_engine kitty.exact_npn_canonization ∅ []
  end.

(** Callbacks that count their calls: one accepts every candidate, one
    rejects every candidate. *)
Definition accept_all (_ : xnet.network) (_ : xnet.signal) (calls : nat) : bool * nat :=
  (true, S calls).

Definition reject_all (_ : xnet.network) (_ : xnet.signal) (calls : nat) : bool * nat :=
  (false, S calls).

(** Two ways of the codec with a wider function, for the examples: one
    does not come back (as a build that asserts the width), one comes back
    with the low sixteen function bits. *)
Definition stops_when_wider : kitty.wide_extension := λ _, None.

Definition low_bits_when_wider : kitty.wide_extension :=
  λ f, Some (N.land (kitty.dtt_bits f) 0xFFFF).

Definition four_leaves : list xnet.signal :=
  [xnet.leaf 0; xnet.leaf 1; xnet.leaf 2; xnet.leaf 3].

(** ** Checks on the transforms of the canonizer *)

(** An input transform of the search is consistent: its polarity has no
    output bit, its sources invert [permute_index], and setting the output
    bit leaves the reading of the inputs unchanged. *)
Definition transform_ok (c : N * list nat * list nat) : bool :=
  let '(phase, perm, high) := c in
  negb (N.testbit phase 4) && N.testbit (N.lor phase 16) 4 &&
  forallb (λ x,
             let y := kitty.permute_index phase perm x in
             (N.to_nat y <? 16)%nat &&
             (nth (N.to_nat y) (reverse high) 16%nat =? N.to_nat x)%nat &&
             (kitty.permute_index (N.lor phase 16) perm x =? y))
          assignments.

(** ** The statistics of the constructor *)

(** The two counters of [xag_npn_resynthesis_stats] that [build_db] sets,
    both [uint32_t]; the two run-times of the structure are readings of the
    clock and are left out. *)
Record xag_npn_resynthesis_stats := mk_stats { db_size : N; covered_classes : N }.

(** A size converted to [uint32_t]. *)
Definition uint32 (n : nat) : N := N.of_nat n mod 2 ^ 32.

(** The last two statements of [build_db]:
    [st.db_size = _db.size()] and
    [st.covered_classes = static_cast<uint32_t>( _repr_to_signal.size() )]. *)
Definition build_db_stats (d : db.network) (idx : class_index) : xag_npn_resynthesis_stats :=
  mk_stats (uint32 (db.size d)) (uint32 (size idx)).

(** ** Shapes of the class index and of the map of a query *)

(** The signals of a list refer to nodes of increasing identifiers. *)
Definition ascending (sigs : list db.signal) : Prop :=
  ∀ i j a b, (i < j)%nat → sigs !! i = Some a → sigs !! j = Some b →
             (db.index a < db.index b)%nat.

(** The map of a query binds nodes of the library only, and binds the nodes
    of both fanins of every gate that it binds. *)
Definition fanin_closed {signal : Type} (d : db.network) (m : gmap nat signal) : Prop :=
  ∀ k, is_Some (m !! k) →
       ∃ nd, d !! k = Some nd ∧ ∀ s, s ∈ db.fanins nd → is_Some (m !! db.index s).

(** The permutation of a transform names four of the positions 0..3. *)
Definition perm_ok (perm : list nat) : bool :=
  forallb (λ i, match perm !! i with Some p => (p <? 4)%nat | None => false end)
          (seq 0 4).

(** * Properties *)

(** ** Bits *)

Lemma testbit_bits_to_N (bs : list bool) (i : nat) :
  N.testbit (bits_to_N bs) (N.of_nat i) = nth i bs false.
Proof.
  revert i; induction bs as [|b bs IH]; intros i.
  - by destruct i.
  - destruct i as [|i].
    + simpl nth. simpl bits_to_N.
      destruct b; rewrite ?N.succ_double_spec, ?N.double_spec.
      * apply N.testbit_odd_0.
      * apply N.testbit_even_0.
    + rewrite Nat2N.inj_succ. simpl nth. simpl bits_to_N.
      destruct b; rewrite ?N.succ_double_spec, ?N.double_spec.
      * rewrite N.testbit_odd_succ by lia. apply IH.
      * rewrite N.testbit_even_succ by lia. apply IH.
Qed.

Lemma testbit_bits_to_N' (bs : list bool) (x : N) :
  N.testbit (bits_to_N bs) x = nth (N.to_nat x) bs false.
Proof. by rewrite <- (N2Nat.id x) at 1; rewrite testbit_bits_to_N. Qed.

Lemma bits_to_N_lt (bs : list bool) : bits_to_N bs < 2 ^ N.of_nat (length bs).
Proof.
  induction bs as [|b bs IH]; [done|].
  cbn [length bits_to_N]. rewrite Nat2N.inj_succ, N.pow_succ_r by lia.
  destruct b; rewrite ?N.succ_double_spec, ?N.double_spec; lia.
Qed.

Lemma bits_to_N_ext {X : Type} (f g : X → bool) (l : list X) :
  (∀ x, x ∈ l → f x = g x) → bits_to_N (f <$> l) = bits_to_N (g <$> l).
Proof.
  induction l as [|x l IH]; intros Hfg; [done|].
  cbn. rewrite IH by (intros; apply Hfg; by right).
  rewrite (Hfg x) by (by left). done.
Qed.

Lemma nth_assignments {X : Type} (f : N → X) (dflt : X) (i : nat) :
  (i < 16)%nat → nth i (f <$> assignments) dflt = f (N.of_nat i).
Proof.
  intros Hi. do 16 (destruct i as [|i]; [reflexivity|]). lia.
Qed.

Lemma elem_of_assignments (x : N) : x ∈ assignments ↔ x < 16.
Proof.
  unfold assignments. rewrite list_elem_of_fmap. split.
  - intros (i & -> & Hi). apply elem_of_seq in Hi. lia.
  - intros Hx. exists (N.to_nat x). split; [lia|]. apply elem_of_seq. lia.
Qed.

Lemma testbit_high (t x : N) : t < 65536 → 16 <= x → N.testbit t x = false.
Proof.
  intros Ht Hx. destruct (decide (t = 0)) as [->|Hne]; [apply N.bits_0|].
  apply N.bits_above_log2.
  assert (N.log2 t < 16) by (apply N.log2_lt_pow2; lia). lia.
Qed.

Lemma bits_to_N_assignments_lt (f : N → bool) : bits_to_N (f <$> assignments) < 65536.
Proof.
  pose proof (bits_to_N_lt (f <$> assignments)) as H.
  by rewrite length_fmap in H.
Qed.

Lemma testbit_bits_to_N_assignments (f : N → bool) (x : N) :
  x < 16 → N.testbit (bits_to_N (f <$> assignments)) x = f x.
Proof.
  intros Hx. rewrite testbit_bits_to_N', nth_assignments by lia.
  by rewrite N2Nat.id.
Qed.

Lemma bits_to_N_testbit (t : N) :
  t < 65536 → bits_to_N (N.testbit t <$> assignments) = t.
Proof.
  intros Ht. apply N.bits_inj. intros x.
  destruct (decide (x < 16)) as [Hx|Hx].
  - by apply testbit_bits_to_N_assignments.
  - rewrite (testbit_high t) by lia.
    apply testbit_high; [apply bits_to_N_assignments_lt | lia].
Qed.

Lemma bit_at_testbit (v k : N) : bit_at v k = N.testbit v k.
Proof.
  unfold bit_at.
  replace (N.testbit v k) with (N.testbit (N.shiftr v k) 0)
    by (rewrite N.shiftr_spec by lia; f_equal; lia).
  by destruct (N.shiftr v k) as [|[p|p|]].
Qed.

Lemma testbit_tt_not (t x : N) :
  x < 16 → N.testbit (kitty.tt_not t) x = negb (N.testbit t x).
Proof.
  intros Hx. unfold kitty.tt_not. rewrite N.lxor_spec.
  change 0xFFFF with (N.ones 16). rewrite N.ones_spec_low by lia.
  by destruct (N.testbit t x).
Qed.

Lemma bits_to_N_take (bs : list bool) (k : nat) :
  bits_to_N (take k bs) = N.land (bits_to_N bs) (N.ones (N.of_nat k)).
Proof.
  apply N.bits_inj. intros x.
  rewrite N.land_spec, !testbit_bits_to_N'.
  destruct (decide (x < N.of_nat k)) as [Hx|Hx].
  - rewrite N.ones_spec_low, andb_true_r by lia.
    by rewrite !nth_lookup, lookup_take_lt by lia.
  - rewrite N.ones_spec_high, andb_false_r by lia.
    apply nth_overflow. rewrite length_take. lia.
Qed.

(** ** The canonical table *)

Lemma transforms_checked : forallb transform_ok kitty.input_transforms = true.
Proof. vm_compute. reflexivity. Qed.

Lemma create_identity (t : N) :
  t < 65536 → kitty.create_from_npn_config (t, 0, [0; 1; 2; 3]%nat) = t.
Proof.
  intros Ht. unfold kitty.create_from_npn_config.
  etrans; [|exact (bits_to_N_testbit t Ht)].
  apply bits_to_N_ext. intros x Hx.
  assert (Hid : kitty.permute_index 0 [0; 1; 2; 3]%nat x = x).
  { revert x Hx. apply Forall_forall. unfold assignments. cbn [seq fmap list_fmap].
    repeat constructor. }
  rewrite Hid. apply xorb_false_r.
Qed.

Lemma candidate_roundtrip (t phase : N) (perm high : list nat) (neg : bool) :
  t < 65536 → transform_ok (phase, perm, high) = true →
  kitty.create_from_npn_config
    (bits_to_N (reverse (kitty.candidate_bits (kitty.tt_bools t) neg high)),
     if neg then N.lor phase 16 else phase, perm) = t.
Proof.
  intros Ht Hok. unfold transform_ok in Hok.
  apply andb_prop in Hok as [Hok Hall]. apply andb_prop in Hok as [H4 H4'].
  apply negb_true_iff in H4.
  unfold kitty.candidate_bits. rewrite <- fmap_reverse.
  unfold kitty.create_from_npn_config.
  etrans; [|exact (bits_to_N_testbit t Ht)].
  apply bits_to_N_ext. intros x Hx.
  rewrite forallb_forall in Hall.
  specialize (Hall x (proj1 (list_elem_of_In _ _) Hx)). cbv zeta in Hall.
  apply andb_prop in Hall as [Hall Hy']. apply andb_prop in Hall as [Hy Hsrc].
  apply Nat.ltb_lt in Hy. apply Nat.eqb_eq in Hsrc. apply N.eqb_eq in Hy'.
  apply elem_of_assignments in Hx.
  assert (Hbit : N.testbit
    (bits_to_N ((λ src, xorb (nth src (kitty.tt_bools t) false) neg) <$> reverse high))
    (kitty.permute_index phase perm x) = xorb (N.testbit t x) neg).
  { rewrite testbit_bits_to_N'. rewrite nth_lookup in Hsrc.
    destruct (reverse high !! _) as [i|] eqn:Hi; simpl in Hsrc; [|lia].
    rewrite nth_lookup, list_lookup_fmap, Hi.
    cbn [fmap option_fmap option_map default from_option]. subst i.
    unfold kitty.tt_bools. rewrite nth_assignments by lia. by rewrite N2Nat.id. }
  destruct neg.
  - rewrite Hy', Hbit, H4'. by destruct (N.testbit t x).
  - rewrite Hbit, H4. by destruct (N.testbit t x).
Qed.

Lemma exact_npn_canonization_roundtrip (t : N) :
  t < 65536 → kitty.create_from_npn_config (kitty.exact_npn_canonization t) = t.
Proof.
  intros Ht. unfold kitty.exact_npn_canonization.
  assert (Hfold : ∀ l (best : list bool * N * list nat),
    forallb transform_ok l = true →
    kitty.create_from_npn_config (bits_to_N (reverse best.1.1), best.1.2, best.2) = t →
    ∀ bits phase perm,
      fold_left (λ best '(phase, perm, high),
                   kitty.try_transform (kitty.tt_bools t) true phase perm high
                     (kitty.try_transform (kitty.tt_bools t) false phase perm high best))
                l best = (bits, phase, perm) →
      kitty.create_from_npn_config (bits_to_N (reverse bits), phase, perm) = t).
  { induction l as [|[[phase perm] high] l IH]; intros best Hok Hbest bits ph pm Hrun.
    - cbn [fold_left] in Hrun. by subst best.
    - cbn [forallb] in Hok. apply andb_prop in Hok as [Hc Hl].
      cbn [fold_left] in Hrun. apply (IH _ Hl) in Hrun; [done|].
      pose proof (candidate_roundtrip t phase perm high true Ht Hc) as H1.
      pose proof (candidate_roundtrip t phase perm high false Ht Hc) as H2.
      unfold kitty.try_transform.
      repeat match goal with |- context [if ?c then _ else _] => destruct c end; done. }
  destruct (fold_left _ _ _) as [[bits phase] perm] eqn:Hrun.
  apply (Hfold _ _ transforms_checked) in Hrun; [done|].
  cbn [fst snd]. rewrite reverse_involutive. unfold kitty.tt_bools.
  rewrite bits_to_N_testbit by done. by apply create_identity.
Qed.

Lemma next_inplace_spec (t : N) :
  t < 65536 → kitty.next_inplace t = if decide (t = 65535) then 0 else t + 1.
Proof.
  intros Ht. unfold kitty.next_inplace.
  change (N.land (t + 1) 0xFFFF) with (N.land (t + 1) (N.ones 16)).
  rewrite N.land_ones. change (2 ^ 16) with 65536. case_decide as Heq.
  - by subst t.
  - apply N.mod_small. lia.
Qed.

Lemma build_classes_loop_spec (fuel : nat) (t : N) (tbl : N → kitty.npn_config) :
  N.of_nat fuel + t = 65536 → (0 < fuel)%nat →
  ∃ tbl', build_classes_loop fuel t tbl = Some tbl' ∧
    (∀ u, t <= u < 65536 → tbl' u = kitty.exact_npn_canonization u) ∧
    (∀ u, u < t → tbl' u = tbl u).
Proof.
  revert t tbl. induction fuel as [|fuel IH]; intros t tbl Hsum Hpos; [lia|].
  cbn [build_classes_loop]. rewrite next_inplace_spec by lia.
  case_decide as Hlast.
  - eexists. split; [reflexivity|]. split; intros u Hu.
    + assert (u = t) as -> by lia. apply fn_lookup_insert.
    + apply fn_lookup_insert_ne. lia.
  - assert (kitty.is_const0 (t + 1) = false) as -> by (apply N.eqb_neq; lia).
    destruct (IH (t + 1) (<[t:=kitty.exact_npn_canonization t]> tbl))
      as (tbl' & Hrun & Hnew & Hold); [lia|lia|].
    exists tbl'. split; [done|]. split; intros u Hu.
    + destruct (decide (u = t)) as [->|Hne].
      * rewrite Hold by lia. apply fn_lookup_insert.
      * apply Hnew. lia.
    + rewrite Hold by lia. apply fn_lookup_insert_ne. lia.
Qed.

Lemma build_classes_spec :
  ∃ tbl, build_classes = Some tbl ∧
    ∀ t, t < 65536 → tbl t = kitty.exact_npn_canonization t.
Proof.
  destruct (build_classes_loop_spec (N.to_nat 65536) 0 initial_table)
    as (tbl & Hrun & Hnew & _); [lia|lia|].
  exists tbl. split; [exact Hrun|]. intros t Ht. apply Hnew. lia.
Qed.

(** C2. Round-trip law of the canonical table: for each of the 65536
    functions [f] of four inputs, [build_classes] stores an entry
    [(representative, polarity, permutation)] such that applying the
    permutation and then the polarity to the representative gives [f]. *)
Theorem canonical_table_round_trip (f : N) :
  f < 65536 →
  ∃ tbl, build_classes = Some tbl ∧ kitty.create_from_npn_config (tbl f) = f.
Proof.
  intros Hf. destruct build_classes_spec as (tbl & Hrun & Htbl).
  exists tbl. split; [exact Hrun|].
  rewrite Htbl by exact Hf. by apply exact_npn_canonization_roundtrip.
Qed.

Lemma canonical_table_round_trip_witness :
  0x0287 < 65536 ∧
  ∃ tbl, build_classes = Some tbl ∧ kitty.create_from_npn_config (tbl 0x0287) = 0x0287.
Proof. split; [reflexivity|]. apply (canonical_table_round_trip 0x0287). reflexivity. Defined.

(** The canonizer returns a function that is not above any function of the
    search: the representative is the numerically minimal one. *)

Lemma bits_to_N_app (l1 l2 : list bool) :
  bits_to_N (l1 ++ l2) = bits_to_N l1 + 2 ^ N.of_nat (length l1) * bits_to_N l2.
Proof.
  induction l1 as [|b l1 IH].
  - simpl. rewrite N.mul_1_l. done.
  - cbn [app bits_to_N length]. rewrite IH, Nat2N.inj_succ, N.pow_succ_r by lia.
    destruct b; rewrite ?N.succ_double_spec, ?N.double_spec; lia.
Qed.

Lemma candidate_below_spec (tb : list bool) (neg : bool) (high : list nat)
    (best : list bool) :
  length high = length best →
  kitty.candidate_below tb neg high best =
    (bits_to_N (reverse (kitty.candidate_bits tb neg high)) <? bits_to_N (reverse best)).
Proof.
  revert best. induction high as [|src high IH]; intros [|b best] Hlen; try done.
  cbn [kitty.candidate_below kitty.candidate_bits fmap list_fmap].
  injection Hlen as Hlen. rewrite (IH best Hlen).
  rewrite !reverse_cons, !bits_to_N_app, !length_reverse.
  unfold kitty.candidate_bits. rewrite length_fmap, Hlen.
  pose proof (bits_to_N_lt (reverse ((λ s, xorb (nth s tb false) neg) <$> high))) as H1.
  pose proof (bits_to_N_lt (reverse best)) as H2.
  rewrite length_reverse, length_fmap, Hlen in H1. rewrite length_reverse in H2.
  set (v1 := bits_to_N (reverse ((λ s, xorb (nth s tb false) neg) <$> high))) in *.
  set (v2 := bits_to_N (reverse best)) in *.
  set (p := 2 ^ N.of_nat (length best)) in *.
  destruct (xorb (nth src tb false) neg), b; cbn [eqb bits_to_N];
    change (N.succ_double 0) with 1; change (N.double 0) with 0;
    rewrite ?N.mul_1_r, ?N.mul_0_r, ?N.add_0_r.
  - destruct (N.ltb_spec v1 v2), (N.ltb_spec (v1 + p) (v2 + p)); done || lia.
  - symmetry. apply N.ltb_ge. lia.
  - symmetry. apply N.ltb_lt. lia.
  - done.
Qed.

Lemma transforms_sixteen :
  forallb (λ c : N * list nat * list nat, (length c.2 =? 16)%nat)
    kitty.input_transforms = true.
Proof. vm_compute. reflexivity. Qed.

Lemma exact_npn_canonization_minimal (t phase : N) (perm high : list nat) (neg : bool) :
  (phase, perm, high) ∈ kitty.input_transforms →
  (kitty.exact_npn_canonization t).1.1 <=
    bits_to_N (reverse (kitty.candidate_bits (kitty.tt_bools t) neg high)).
Proof.
  unfold kitty.exact_npn_canonization.
  assert (Hfold : ∀ l (best : list bool * N * list nat),
    forallb (λ c : N * list nat * list nat, (length c.2 =? 16)%nat) l = true →
    length best.1.1 = 16%nat →
    bits_to_N (reverse
      (fold_left (λ best '(phase, perm, high),
                    kitty.try_transform (kitty.tt_bools t) true phase perm high
                      (kitty.try_transform (kitty.tt_bools t) false phase perm high best))
                 l best).1.1) <= bits_to_N (reverse best.1.1) ∧
    ∀ phase perm high neg, (phase, perm, high) ∈ l →
      bits_to_N (reverse
        (fold_left (λ best '(phase, perm, high),
                      kitty.try_transform (kitty.tt_bools t) true phase perm high
                        (kitty.try_transform (kitty.tt_bools t) false phase perm high best))
                   l best).1.1) <=
      bits_to_N (reverse (kitty.candidate_bits (kitty.tt_bools t) neg high))).
  { induction l as [|[[ph pm] hi] l IH]; intros best Hlen Hbest.
    - split; [done|]. intros ? ? ? ? Hin. by apply elem_of_nil in Hin.
    - cbn [forallb] in Hlen. apply andb_prop in Hlen as [Hhi Hlen].
      apply Nat.eqb_eq in Hhi. cbn [snd] in Hhi. cbn [fold_left].
      set (b1 := kitty.try_transform (kitty.tt_bools t) false ph pm hi best).
      set (b2 := kitty.try_transform (kitty.tt_bools t) true ph pm hi b1).
      assert (Hstep : ∀ ng (b : list bool * N * list nat), length b.1.1 = 16%nat →
        length (kitty.try_transform (kitty.tt_bools t) ng ph pm hi b).1.1 = 16%nat ∧
        bits_to_N (reverse (kitty.try_transform (kitty.tt_bools t) ng ph pm hi b).1.1)
          <= bits_to_N (reverse b.1.1) ∧
        bits_to_N (reverse (kitty.try_transform (kitty.tt_bools t) ng ph pm hi b).1.1)
          <= bits_to_N (reverse (kitty.candidate_bits (kitty.tt_bools t) ng hi))).
      { intros ng b Hb. unfold kitty.try_transform.
        rewrite candidate_below_spec by lia.
        destruct (N.ltb_spec
          (bits_to_N (reverse (kitty.candidate_bits (kitty.tt_bools t) ng hi)))
          (bits_to_N (reverse b.1.1))); cbn [fst].
        - unfold kitty.candidate_bits at 1. rewrite length_fmap. split; [done|]. lia.
        - split; [done|]. lia. }
      destruct (Hstep false best Hbest) as (Hl1 & Hle1 & Hc1). fold b1 in Hl1, Hle1, Hc1.
      destruct (Hstep true b1 Hl1) as (Hl2 & Hle2 & Hc2). fold b2 in Hl2, Hle2, Hc2.
      destruct (IH b2 Hlen Hl2) as [Hmono Hall]. split; [lia|].
      intros phase' perm' high' neg' Hin. apply elem_of_cons in Hin as [Heq|Hin].
      + injection Heq as -> -> ->. destruct neg'; lia.
      + exact (Hall phase' perm' high' neg' Hin). }
  intros Hin.
  destruct (Hfold kitty.input_transforms
              (reverse (kitty.tt_bools t), 0, [0; 1; 2; 3]%nat) transforms_sixteen)
    as [_ Hall];
    [cbn [fst]; unfold kitty.tt_bools; by rewrite length_reverse, length_fmap|].
  specialize (Hall phase perm high neg Hin).
  by destruct (fold_left _ _ _) as [[bits ph] pm].
Qed.

(** ** The library network *)

Section library_network.

Local Open Scope nat_scope.

Lemma topo_pass_snoc {V : Type} (f : list V → db.node → V) (d : db.network) (nd : db.node) :
  db.topo_pass f (d ++ [nd]) = db.topo_pass f d ++ [f (db.topo_pass f d) nd].
Proof. unfold db.topo_pass. by rewrite fold_left_app. Qed.

Lemma topo_pass_length {V : Type} (f : list V → db.node → V) (d : db.network) :
  length (db.topo_pass f d) = length d.
Proof.
  induction d as [|nd d IH] using rev_ind; [done|].
  rewrite topo_pass_snoc, !length_app, IH. done.
Qed.

Lemma topo_pass_lookup {V : Type} (f : list V → db.node → V) (d : db.network)
    (n : nat) (nd : db.node) :
  d !! n = Some nd →
  db.topo_pass f d !! n = Some (f (take n (db.topo_pass f d)) nd).
Proof.
  induction d as [|x d IH] using rev_ind; [done|].
  intros Hn. rewrite topo_pass_snoc.
  pose proof (topo_pass_length f d) as Hlen.
  destruct (decide (n < length d)) as [Hlt|Hge].
  - rewrite lookup_app_l in Hn by lia.
    rewrite lookup_app_l, take_app_le by lia. by apply IH.
  - pose proof (lookup_lt_Some _ _ _ Hn) as Hb. rewrite length_app in Hb. simpl in Hb.
    assert (n = length d) as -> by lia.
    rewrite list_lookup_middle in Hn by done. injection Hn as ->.
    rewrite list_lookup_middle by done.
    by rewrite take_app_length' by done.
Qed.

Lemma signal_value_take (values : list N) (n : nat) (s : db.signal) :
  db.index s < n → db.signal_value (take n values) s = db.signal_value values s.
Proof. intros Hs. unfold db.signal_value. by rewrite lookup_total_take_lt. Qed.

Lemma fanins_gate (nd : db.node) (s : db.signal) :
  s ∈ db.fanins nd →
  ∃ a b, db.fanins nd = [a; b] ∧ (nd = db.And a b ∨ nd = db.Xor a b) ∧ (s = a ∨ s = b).
Proof.
  destruct nd as [| |a b|a b]; simpl; intros Hs; try by apply elem_of_nil in Hs.
  all: exists a, b; split; [done|]; split; [auto|].
  all: apply elem_of_cons in Hs as [->|Hs]; [by left|].
  all: apply list_elem_of_singleton in Hs as ->; by right.
Qed.

(** The simulated table of a gate is the AND or the XOR of the tables of
    its fanin signals. *)
Lemma simulate_nodes_lookup (d : db.network) (n : nat) (nd : db.node) :
  db.topological d → d !! n = Some nd →
  db.simulate_nodes d !!! n = db.node_value (db.simulate_nodes d) nd.
Proof.
  intros Htopo Hn. apply list_lookup_total_correct.
  unfold db.simulate_nodes. rewrite (topo_pass_lookup _ _ _ _ Hn). f_equal.
  destruct nd as [| |a b|a b]; simpl; try done.
  all: rewrite !signal_value_take; [done|..].
  all: apply (Htopo n _ _ Hn); simpl; set_solver.
Qed.

Lemma level_lookup (d : db.network) (n : nat) (nd : db.node) :
  db.topological d → d !! n = Some nd →
  db.level d n =
    match nd with
    | db.Const | db.Pi _ => 0
    | db.And a b | db.Xor a b => S (db.level d (db.index a) `max` db.level d (db.index b))
    end.
Proof.
  intros Htopo Hn. unfold db.level at 1. apply list_lookup_total_correct.
  rewrite (topo_pass_lookup _ _ _ _ Hn). f_equal.
  destruct nd as [| |a b|a b]; simpl; try done.
  all: unfold db.level; rewrite !lookup_total_take_lt; [done|..].
  all: apply (Htopo n _ _ Hn); simpl; set_solver.
Qed.

Lemma level_fanin (d : db.network) (n : nat) (nd : db.node) (s : db.signal) :
  db.topological d → d !! n = Some nd → s ∈ db.fanins nd →
  db.level d (db.index s) < db.level d n.
Proof.
  intros Htopo Hn Hs. rewrite (level_lookup d n nd Htopo Hn).
  destruct (fanins_gate nd s Hs) as (a & b & _ & [->| ->] & [->| ->]); lia.
Qed.

Lemma level_le (d : db.network) (n : nat) :
  db.topological d → n < length d → db.level d n ≤ n.
Proof.
  intros Htopo. induction n as [n IH] using lt_wf_ind. intros Hn.
  destruct (lookup_lt_is_Some_2 d n Hn) as [nd Hnd].
  rewrite (level_lookup d n nd Htopo Hnd).
  destruct nd as [| |a b|a b]; try lia.
  all: assert (db.index a < n) by (apply (Htopo n _ _ Hnd); simpl; set_solver).
  all: assert (db.index b < n) by (apply (Htopo n _ _ Hnd); simpl; set_solver).
  all: pose proof (IH (db.index a)); pose proof (IH (db.index b)); lia.
Qed.

(** A node is a gate when it has its two fanin edges. *)
Lemma topological_snoc (d : db.network) (nd : db.node) :
  db.topological d → (∀ s, s ∈ db.fanins nd → db.index s < length d) →
  db.topological (d ++ [nd]).
Proof.
  intros Htopo Hnd n nd' s Hn Hs.
  destruct (decide (n < length d)) as [Hlt|Hge].
  - rewrite lookup_app_l in Hn by done. by eapply Htopo.
  - pose proof (lookup_lt_Some _ _ _ Hn) as Hb. rewrite length_app in Hb. simpl in Hb.
    assert (n = length d) as -> by lia.
    rewrite list_lookup_middle in Hn by done. injection Hn as <-. by apply Hnd.
Qed.

Lemma decode_gates_spec (gates : nat) (body : list N) (d d' : db.network) :
  db.decode_gates gates body d = Some d' →
  ∃ gs, d' = d ++ gs ∧ Forall (λ nd, db.fanins nd ≠ []) gs ∧
        (db.topological d → db.topological d').
Proof.
  revert body d d'. induction gates as [|gates IH]; intros body d d' Hdec.
  - injection Hdec as <-. exists []. by rewrite app_nil_r.
  - cbn [db.decode_gates] in Hdec.
    destruct body as [|lit0 [|lit1 rest]]; try done.
    case_decide as Hdef; [|done].
    apply IH in Hdec as (gs & Heq & Hgs & Htopo). subst d'.
    eexists (_ :: gs). split; [by rewrite <- app_assoc|]. split.
    + constructor; [|done]. by destruct (N.ltb lit1 lit0).
    + intros Hd. apply Htopo. apply topological_snoc; [done|].
      destruct Hdef as [Ha Hb]. intros s Hs.
      assert (s ∈ [db.signal_of_literal lit0; db.signal_of_literal lit1]) as Hs'
        by (by destruct (N.ltb lit1 lit0)).
      apply elem_of_cons in Hs' as [->|Hs']; [done|].
      by apply list_elem_of_singleton in Hs' as ->.
Qed.

Lemma decode_spec (header : N) (body : list N) (d : db.network) :
  db.decode (header :: body) = Some d →
  db.topological d ∧
  ∃ gs, d = db.Const :: (db.Pi <$> seq 0 (N.to_nat (N.land header 0xFF))) ++ gs ∧
        Forall (λ nd, db.fanins nd ≠ []) gs.
Proof.
  unfold db.decode. intros Hdec.
  apply decode_gates_spec in Hdec as (gs & -> & Hgs & Htopo). split.
  - apply Htopo. intros n nd s Hn Hs.
    destruct n as [|n]; simpl in Hn.
    + injection Hn as <-. by apply elem_of_nil in Hs.
    + rewrite list_lookup_fmap in Hn.
      destruct (seq 0 _ !! n); simplify_eq/=. by apply elem_of_nil in Hs.
  - by exists gs.
Qed.

Lemma decode_topological (encoding : list N) (d : db.network) :
  db.decode encoding = Some d → db.topological d.
Proof.
  destruct encoding as [|header body]; [done|]. intros Hdec.
  by apply decode_spec in Hdec as [? _].
Qed.

End library_network.

Lemma make_engine_inv (tbl : N → kitty.npn_config) (encoding : list N) (E : engine) :
  make_engine tbl encoding = Some E →
  ∃ d, db.decode encoding = Some d ∧ E = mk_engine tbl (classify tbl d) d.
Proof.
  unfold make_engine, build_db. intros HE.
  destruct (db.decode encoding) as [d|]; [|done].
  exists d. split; [done|]. simpl in HE. by injection HE as <-.
Qed.

Lemma make_engine_topological (tbl : N → kitty.npn_config) (encoding : list N) (E : engine) :
  make_engine tbl encoding = Some E → db.topological (_db E).
Proof.
  intros (d & Hdec & ->)%make_engine_inv. simpl. by eapply decode_topological.
Qed.

Lemma library_classified :
  build_db kitty.exact_npn_canonization subgraphs = library.
Proof. vm_cast_no_check (eq_refl library). Qed.

Lemma library_built :
  make_engine kitty.exact_npn_canonization subgraphs = Some library_engine.
Proof. unfold make_engine. rewrite library_classified. reflexivity. Qed.

(** ** The memoised copy *)

Section copy.

Context {Ntk signal : Type} {net : Network Ntk signal}.
Variable E : engine.

Local Open Scope nat_scope.


(** The calls of [copy_db_entry] that return, as rules: a node found in
    the map; a node without fanins; a gate, after the copies of its two
    fanins. *)
Lemma copy_db_entry_rule
    (P : nat → Ntk * gmap nat signal → signal → Ntk * gmap nat signal → Prop) :
  (∀ n st s, st.2 !! n = Some s → P n st s st) →
  (∀ n ntk m nd f ntk2,
     m !! n = None → _db E !! n = Some nd → db.fanins nd = [] →
     (if db.is_xor (_db E) n
      then create_xor default_signal default_signal ntk
      else create_and default_signal default_signal ntk) = (f, ntk2) →
     P n (ntk, m) f (ntk2, map_insert n f m)) →
  (∀ n st nd a b ra ntk_a m_a sa ntk_a' rb ntk_b m_b sb ntk_b' f ntk2,
     st.2 !! n = None → _db E !! n = Some nd → db.fanins nd = [a; b] →
     P (db.index a) st ra (ntk_a, m_a) →
     complement_if (db.complement a) ra ntk_a = (sa, ntk_a') →
     P (db.index b) (ntk_a', m_a) rb (ntk_b, m_b) →
     complement_if (db.complement b) rb ntk_b = (sb, ntk_b') →
     (if db.is_xor (_db E) n
      then create_xor sa sb ntk_b' else create_and sa sb ntk_b') = (f, ntk2) →
     P n st f (ntk2, map_insert n f m_b)) →
  ∀ fuel n st r st', copy_db_entry E fuel n st = Some (r, st') → P n st r st'.
Proof.
  intros Hhit Hleaf Hgate. induction fuel as [|fuel IH]; intros n st r st' Hcopy; [done|].
  cbn [copy_db_entry] in Hcopy.
  destruct (st.2 !! n) as [s|] eqn:Hmemo.
  { injection Hcopy as <- <-. by apply Hhit. }
  destruct (_db E !! n) as [nd|] eqn:Hnd; [|done].
  cbn [mbind option_bind] in Hcopy.
  assert (Hcases : db.fanins nd = [] ∨ ∃ a b, db.fanins nd = [a; b])
    by (destruct nd; simpl; eauto).
  destruct Hcases as [Hnil|(a & b & Hab)].
  - rewrite Hnil in Hcopy. cbn [foreach_indexed mbind option_bind nth] in Hcopy.
    destruct st as [ntk m]. cbn [fst snd] in *.
    destruct (if db.is_xor (_db E) n then _ else _) as [f ntk2] eqn:Hf.
    injection Hcopy as <- <-. by eapply Hleaf.
  - rewrite Hab in Hcopy. cbn [foreach_indexed mbind option_bind] in Hcopy.
    unfold db.get_node, db.is_complemented in Hcopy.
    destruct (copy_db_entry E fuel (db.index a) st) as [[ra [ntk_a m_a]]|] eqn:Ha;
      cbn [mbind option_bind] in Hcopy; [|done].
    destruct (complement_if (db.complement a) ra ntk_a) as [sa ntk_a'] eqn:Hca.
    cbn [mbind option_bind] in Hcopy.
    destruct (copy_db_entry E fuel (db.index b) (ntk_a', m_a)) as [[rb [ntk_b m_b]]|] eqn:Hb;
      cbn [mbind option_bind] in Hcopy; [|done].
    destruct (complement_if (db.complement b) rb ntk_b) as [sb ntk_b'] eqn:Hcb.
    cbn [mbind option_bind insert list_insert nth] in Hcopy.
    destruct (if db.is_xor (_db E) n then _ else _) as [f ntk2] eqn:Hf.
    injection Hcopy as <- <-.
    eapply Hgate; eauto.
Qed.

Lemma map_insert_fresh (k : nat) (v : signal) (m : gmap nat signal) :
  m !! k = None → map_insert k v m = <[k:=v]> m.
Proof. intros Hk. unfold map_insert. by rewrite Hk. Qed.

Lemma map_insert_subseteq (k : nat) (v : signal) (m : gmap nat signal) :
  m ⊆ map_insert k v m.
Proof.
  unfold map_insert. destruct (m !! k) eqn:Hk; [done|]. by apply insert_subseteq.
Qed.

(** Enough fuel for the depth of the subcircuit gives a result. *)
Lemma copy_db_entry_returns (fuel n : nat) (st : Ntk * gmap nat signal) :
  db.topological (_db E) → n < length (_db E) → db.level (_db E) n < fuel →
  is_Some (copy_db_entry E fuel n st).
Proof.
  intros Htopo. revert n st.
  induction fuel as [|fuel IH]; intros n st Hn Hlevel; [lia|].
  cbn [copy_db_entry].
  destruct (st.2 !! n) as [s|] eqn:Hmemo; [by eexists|].
  destruct (lookup_lt_is_Some_2 _ _ Hn) as [nd Hnd]. rewrite Hnd.
  cbn [mbind option_bind].
  assert (Hcases : db.fanins nd = [] ∨ ∃ a b, db.fanins nd = [a; b])
    by (destruct nd; simpl; eauto).
  destruct Hcases as [Hnil|(a & b & Hab)].
  - rewrite Hnil. cbn [foreach_indexed mbind option_bind nth].
    destruct st as [ntk m].
    by destruct (if db.is_xor (_db E) n then _ else _) as [f ntk2].
  - assert (Ha : a ∈ db.fanins nd) by (rewrite Hab; set_solver).
    assert (Hb : b ∈ db.fanins nd) by (rewrite Hab; set_solver).
    pose proof (Htopo n nd a Hnd Ha) as Han.
    pose proof (Htopo n nd b Hnd Hb) as Hbn.
    pose proof (level_fanin _ _ _ _ Htopo Hnd Ha) as Hla.
    pose proof (level_fanin _ _ _ _ Htopo Hnd Hb) as Hlb.
    rewrite Hab. cbn [foreach_indexed mbind option_bind].
    unfold db.get_node, db.is_complemented.
    destruct (IH (db.index a) st) as [[ra [ntk_a m_a]] ->]; [lia|lia|].
    cbn [mbind option_bind].
    destruct (complement_if (db.complement a) ra ntk_a) as [sa ntk_a'].
    cbn [mbind option_bind].
    destruct (IH (db.index b) (ntk_a', m_a)) as [[rb [ntk_b m_b]] ->]; [lia|lia|].
    cbn [mbind option_bind].
    destruct (complement_if (db.complement b) rb ntk_b) as [sb ntk_b'].
    cbn [mbind option_bind insert list_insert nth].
    by destruct (if db.is_xor (_db E) n then _ else _) as [f ntk2].
Qed.


End copy.

(** C9. Reconstruction terminates: the library of a constructed engine is
    in topological order, so the recursive copy of any of its nodes
    returns as soon as it is given more nested calls than the depth of the
    subcircuit below the node; this depth is less than the size of the
    library, the bound given by the query operator. *)
Theorem reconstruction_terminates {Ntk signal : Type} {net : Network Ntk signal}
    (tbl : N → kitty.npn_config) (encoding : list N) (E : engine)
    (n fuel : nat) (st : Ntk * gmap nat signal) :
  make_engine tbl encoding = Some E →
  (n < db.size (_db E))%nat →
  (db.level (_db E) n < fuel)%nat →
  is_Some (copy_db_entry E fuel n st) ∧ (db.level (_db E) n < db.size (_db E))%nat.
Proof.
  intros HE Hn Hfuel. pose proof (make_engine_topological _ _ _ HE) as Htopo.
  split; [by apply copy_db_entry_returns|].
  pose proof (level_le _ _ Htopo Hn). unfold db.size in *. lia.
Qed.

Lemma reconstruction_terminates_witness :
  is_Some (copy_db_entry library_engine 5 1784 (([] : xnet.network), ∅)) ∧
  (db.level (_db library_engine) 1784 < db.size (_db library_engine))%nat.
Proof.
  apply (reconstruction_terminates kitty.exact_npn_canonization subgraphs).
  - exact library_built.
  - vm_compute. reflexivity.
  - vm_compute. reflexivity.
Defined.

(** ** Counting the gates of a copy *)

Section counted_copy.

Context {Ntk signal : Type} {net : Network Ntk signal}.
Variable E : engine.



End counted_copy.


(** ** The query operator *)

Section operator_paths.

Context {Ntk signal A : Type} {net : Network Ntk signal}.
Context {wide : kitty.wide_extension}.
Variable E : engine.

Local Open Scope nat_scope.

Lemma std_copy_spec {T : Type} (src dst : list T) (pos : nat) :
  (pos + length src ≤ length dst →
   std_copy src dst pos = Some (take pos dst ++ src ++ drop (pos + length src) dst)) ∧
  (pos ≤ length dst → length dst < pos + length src → std_copy src dst pos = None).
Proof.
  revert dst pos. induction src as [|x src IH]; intros dst pos.
  - simpl. split; [|lia]. intros _. by rewrite Nat.add_0_r, take_drop.
  - cbn [std_copy length]. case_decide as Hpos.
    + destruct (IH (<[pos:=x]> dst) (S pos)) as [Hin Hout].
      rewrite length_insert in Hin, Hout. split; [intros Hlen|].
      * rewrite Hin by lia.
        rewrite (take_S_r _ _ x) by (by apply list_lookup_insert_eq).
        rewrite take_insert_ge, drop_insert_lt by lia.
        replace (pos + S (length src)) with (S pos + length src) by lia.
        by rewrite <- app_assoc.
      * intros _ Hlen. apply Hout; lia.
    + split; [lia|done].
Qed.

Lemma std_copy_leaves (leaves : list signal) (c : signal) :
  length leaves ≤ 4 →
  std_copy leaves (replicate 4 c) 0 = Some (leaves ++ replicate (4 - length leaves) c).
Proof.
  intros Hlen. destruct (std_copy_spec leaves (replicate 4 c) 0) as [Hin _].
  rewrite Hin by (rewrite length_replicate; lia).
  by rewrite take_0, drop_replicate.
Qed.

Lemma std_copy_overrun (leaves : list signal) (c : signal) :
  4 < length leaves → std_copy leaves (replicate 4 c) 0 = None.
Proof.
  intros Hlen. destruct (std_copy_spec leaves (replicate 4 c) 0) as [_ Hout].
  apply Hout; rewrite length_replicate; lia.
Qed.

(** C7. No-match is not an error: when the representative of the query
    function is absent from the class index, the operator returns, the
    callback has not been called, and the network is the one it was given. *)
Theorem no_match_is_not_an_error (ntk : Ntk) (f : kitty.dynamic_truth_table)
    (leaves : list signal) (fn : Ntk → signal → A → bool * A) (a : A) (t : N) :
  kitty.extend_to4 f = Some t →
  _repr_to_signal E !! (_repr E t).1.1 = None →
  operator E ntk f leaves fn a = Returned (ntk, a, []).
Proof.
  intros Ht Hnone. unfold operator. rewrite Ht.
  destruct (_repr E t) as [[repr phase] perm]. simpl in Hnone. by rewrite Hnone.
Qed.

(** A table of sixteen bits is the extension of the four-input function
    that it describes. *)
Lemma extend_to4_four (t : N) :
  (t < 65536)%N → kitty.extend_to4 (kitty.mk_dtt 4 t) = Some t.
Proof.
  intros Ht. unfold kitty.extend_to4. cbn [kitty.num_vars kitty.dtt_bits].
  rewrite decide_True by lia. f_equal.
  etrans; [|exact (bits_to_N_testbit t Ht)].
  apply bits_to_N_ext. intros x Hx%elem_of_assignments. f_equal.
  change (N.of_nat 4) with 4%N. rewrite N.land_ones. apply N.mod_small.
  change (2 ^ 4)%N with 16%N. lia.
Qed.

(** C4, as the code has it. The operator makes no test of the width: a
    function of more than four inputs is handed to [extend_to<4>] like any
    other. When that call does not come back, neither does the query;
    when it comes back with a table, the query goes on with this table as
    it does for the four-input function of this table: it looks up the
    class and offers the candidates. A width of at most four is a
    precondition of the query that the operator does not check. *)
Theorem wider_function_is_not_handled (ntk : Ntk) (f : kitty.dynamic_truth_table)
    (leaves : list signal) (fn : Ntk → signal → A → bool * A) (a : A) :
  4 < kitty.num_vars f →
  match kitty.extend_wide f with
  | None => operator E ntk f leaves fn a = Faulted no_extension
  | Some t =>
      (t < 65536)%N →
      operator E ntk f leaves fn a = operator E ntk (kitty.mk_dtt 4 t) leaves fn a
  end.
Proof.
  intros Hwide.
  assert (Hext : kitty.extend_to4 f = kitty.extend_wide f).
  { unfold kitty.extend_to4. by rewrite decide_False by lia. }
  unfold operator. rewrite Hext.
  destruct (kitty.extend_wide f) as [t|]; [|done].
  intros Ht. by rewrite (extend_to4_four t Ht).
Qed.

Lemma seed_input_returns (phase : N) (perm : list nat) (pis : list signal) (i p : nat)
    (st : Ntk * gmap nat signal) :
  perm !! i = Some p → p < length pis →
  is_Some (seed_input phase perm pis i st).
Proof.
  intros Hp Hlt. unfold seed_input. rewrite Hp. cbn [mbind option_bind].
  destruct (lookup_lt_is_Some_2 pis p Hlt) as [s ->]. cbn [mbind option_bind].
  by destruct (complement_if _ s st.1).
Qed.

Lemma query_context_returns (ntk : Ntk) (phase : N) (perm : list nat)
    (leaves : list signal) :
  length leaves ≤ 4 →
  (∀ i, i < 4 → ∃ p, perm !! i = Some p ∧ p < 4) →
  ∃ st, query_context ntk phase perm leaves = Returned st.
Proof.
  intros Hlen Hperm. unfold query_context. rewrite std_copy_leaves by done.
  set (pis := leaves ++ replicate (4 - length leaves) (get_constant ntk false)).
  assert (Hpis : length pis = 4)
    by (unfold pis; rewrite length_app, length_replicate; lia).
  assert (Hseed : ∀ i st, i < 4 → is_Some (seed_input phase perm pis i st)).
  { intros i st Hi. destruct (Hperm i Hi) as (p & Hp & Hlt).
    eapply seed_input_returns; [done|lia]. }
  cbn [seq foreach_indexed].
  destruct (Hseed 0 (ntk, map_insert 0 (get_constant ntk false) ∅)) as [st1 ->]; [lia|].
  cbn [mbind option_bind].
  destruct (Hseed 1 st1) as [st2 ->]; [lia|]. cbn [mbind option_bind].
  destruct (Hseed 2 st2) as [st3 ->]; [lia|]. cbn [mbind option_bind].
  destruct (Hseed 3 st3) as [st4 ->]; [lia|]. cbn [mbind option_bind].
  by exists st4.
Qed.

(** C10. Unguarded leaf copy: the operator copies the leaves into the
    buffer of exactly four signals without a test of their number. With
    at most four leaves the copy stays inside the buffer, which then holds
    the leaves and constant false at the positions beyond them, and the
    operator comes through the context to the candidates (the permutation
    of the table entry naming positions of the buffer); with more than
    four leaves the operator runs past the end of the buffer: it has no
    handling of that case. *)
Theorem leaf_copy_is_unguarded (ntk : Ntk) (f : kitty.dynamic_truth_table)
    (leaves : list signal) (fn : Ntk → signal → A → bool * A) (a : A)
    (t : N) (cands : list db.signal) :
  kitty.extend_to4 f = Some t →
  _repr_to_signal E !! (_repr E t).1.1 = Some cands →
  (length leaves ≤ 4 →
   std_copy leaves (replicate 4 (get_constant ntk false)) 0 =
     Some (leaves ++ replicate (4 - length leaves) (get_constant ntk false)) ∧
   ((∀ i, i < 4 → ∃ p, (_repr E t).2 !! i = Some p ∧ p < 4) →
    ∃ st, query_context ntk (_repr E t).1.2 (_repr E t).2 leaves = Returned st ∧
          operator E ntk f leaves fn a
          = run_candidates E fn (_repr E t).1.2 cands st a [])) ∧
  (4 < length leaves → operator E ntk f leaves fn a = Faulted out_of_bounds).
Proof.
  intros Ht Hcands. unfold operator. rewrite Ht.
  destruct (_repr E t) as [[repr phase] perm]. cbn [fst snd] in *. rewrite Hcands.
  split.
  - intros Hlen. split; [by apply std_copy_leaves|]. intros Hperm.
    destruct (query_context_returns ntk phase perm leaves Hlen Hperm) as [st Hst].
    exists st. split; [exact Hst|]. by rewrite Hst.
  - intros Hlen. unfold query_context. by rewrite std_copy_overrun.
Qed.

End operator_paths.

Lemma no_match_is_not_an_error_witness :
  operator (wide := stops_when_wider) library_engine ([] : xnet.network)
    (kitty.mk_dtt 4 0x0117) four_leaves accept_all 0%nat = Returned ([], 0%nat, []).
Proof.
  apply (no_match_is_not_an_error library_engine _ _ _ _ _ 0x0117).
  - vm_compute. reflexivity.
  - vm_compute. reflexivity.
Defined.

(** The function of five inputs with the table [0x88888888] (the AND of
    its first two inputs): with a codec that goes on with the low sixteen
    bits the operator offers a candidate, and with a codec that does not
    come back the operator does not return. Neither is a return with zero
    candidates. *)
Lemma wider_function_counterexample :
  (∃ r, operator (wide := low_bits_when_wider) library_engine ([] : xnet.network)
          (kitty.mk_dtt 5 0x88888888) [xnet.leaf 0; xnet.leaf 1] accept_all 0%nat
        = Returned r ∧ r.1.2 = 1%nat ∧ r.2 ≠ []) ∧
  operator (wide := stops_when_wider) library_engine ([] : xnet.network)
    (kitty.mk_dtt 5 0x88888888) [xnet.leaf 0; xnet.leaf 1] accept_all 0%nat
  ≠ Returned ([], 0%nat, []).
Proof.
  split.
  - eexists. split; [vm_compute; reflexivity|]. split; [reflexivity|discriminate].
  - vm_compute. discriminate.
Qed.

Lemma wider_function_is_not_handled_witness :
  operator (wide := low_bits_when_wider) library_engine ([] : xnet.network)
    (kitty.mk_dtt 5 0x88888888) [xnet.leaf 0; xnet.leaf 1] accept_all 0%nat
  = operator (wide := low_bits_when_wider) library_engine ([] : xnet.network)
      (kitty.mk_dtt 4 0x8888) [xnet.leaf 0; xnet.leaf 1] accept_all 0%nat.
Proof.
  refine (wider_function_is_not_handled (wide := low_bits_when_wider) library_engine
            ([] : xnet.network) (kitty.mk_dtt 5 0x88888888)
            [xnet.leaf 0; xnet.leaf 1] accept_all 0%nat _ _).
  - simpl. lia.
  - reflexivity.
Defined.

Lemma leaf_copy_is_unguarded_witness :
  (std_copy [xnet.leaf 0; xnet.leaf 1]
     (replicate 4 (get_constant ([] : xnet.network) false)) 0
   = Some ([xnet.leaf 0; xnet.leaf 1]
             ++ replicate (4 - length [xnet.leaf 0; xnet.leaf 1])
                  (get_constant ([] : xnet.network) false)) ∧
   ∃ st,
     query_context ([] : xnet.network) (_repr library_engine 0x8888).1.2
       (_repr library_engine 0x8888).2 [xnet.leaf 0; xnet.leaf 1] = Returned st ∧
     operator (wide := stops_when_wider) library_engine ([] : xnet.network)
       (kitty.mk_dtt 2 8) [xnet.leaf 0; xnet.leaf 1] accept_all 0%nat
     = run_candidates library_engine accept_all (_repr library_engine 0x8888).1.2
         [db.mk_signal 33 false] st 0%nat []) ∧
  operator (wide := stops_when_wider) library_engine ([] : xnet.network)
    (kitty.mk_dtt 2 8) (four_leaves ++ [xnet.leaf 4]) accept_all 0%nat
  = Faulted out_of_bounds.
Proof.
  assert (Ht : kitty.extend_to4 (wide := stops_when_wider) (kitty.mk_dtt 2 8)
               = Some 0x8888%N) by (vm_compute; reflexivity).
  assert (Hcands : _repr_to_signal library_engine !! (_repr library_engine 0x8888).1.1
                   = Some [db.mk_signal 33 false]) by (vm_compute; reflexivity).
  split.
  - destruct (proj1 (leaf_copy_is_unguarded library_engine ([] : xnet.network)
                       (kitty.mk_dtt 2 8) [xnet.leaf 0; xnet.leaf 1] accept_all 0%nat
                       0x8888 [db.mk_signal 33 false] Ht Hcands)) as [Hcopy Hgo];
      [simpl; lia|].
    split; [exact Hcopy|]. apply Hgo. intros i Hi.
    destruct i as [|[|[|[|i]]]]; [| | | |lia];
      vm_compute; eexists; (split; [reflexivity|lia]).
  - apply (proj2 (leaf_copy_is_unguarded library_engine ([] : xnet.network)
                    (kitty.mk_dtt 2 8) (four_leaves ++ [xnet.leaf 4]) accept_all 0%nat
                    0x8888 [db.mk_signal 33 false] Ht Hcands)).
    simpl. lia.
Defined.

(** ** Cancellation *)

Section cancellation.

Context {Ntk signal A : Type} {net : Network Ntk signal}.
Context {wide : kitty.wide_extension}.
Variable E : engine.

Local Open Scope nat_scope.

(** The calls added by the loop end with the first rejected candidate, and
    the loop comes to the same result on the candidates up to it. *)
Lemma run_candidates_prefix (fn : Ntk → signal → A → bool * A) (phase : N)
    (cands : list db.signal) (st : Ntk * gmap nat signal) (a : A)
    (calls : list (signal * bool)) (r : Ntk * A * list (signal * bool)) :
  run_candidates E fn phase cands st a calls = Returned r →
  ∃ new, r.2 = calls ++ new ∧
    ∀ j c, new !! j = Some (c, false) →
      length new = S j ∧
      run_candidates E fn phase (take (S j) cands) st a calls = Returned r.
Proof.
  revert st a calls. induction cands as [|cand rest IH]; intros st a calls Hrun.
  - injection Hrun as <-. exists []. split; [by rewrite app_nil_r|]. by intros [|j] c.
  - cbn [run_candidates] in Hrun.
    destruct (copy_db_entry E (db.size (_db E)) (db.get_node cand) st)
      as [[f [ntk1 m1]]|] eqn:Hcopy; [|done].
    destruct (complement_if (xorb (db.is_complemented cand) (bit_at phase 4)) f ntk1)
      as [out ntk2] eqn:Hout.
    destruct (fn ntk2 out a) as [[|] a'] eqn:Hfn.
    + apply IH in Hrun as (new & Hnew & Hstop).
      exists ((out, true) :: new). split; [by rewrite Hnew, <- app_assoc|].
      intros [|j] c Hj; [done|]. destruct (Hstop j c Hj) as [Hlen Hrun].
      split; [simpl; lia|].
      change (take (S (S j)) (cand :: rest)) with (cand :: take (S j) rest).
      cbn [run_candidates]. by rewrite Hcopy, Hout, Hfn.
    + injection Hrun as <-. exists [(out, false)]. split; [done|].
      intros [|j] c Hj; [|by destruct j]. split; [done|].
      cbn [take run_candidates]. by rewrite Hcopy, Hout, Hfn.
Qed.

(** C6. Cancellation: when the callback has answered false to a candidate,
    that call is the last one of the query, and the query comes to the
    same network, callback state and calls as on a class index that holds
    only the candidates up to the rejected one: no further candidate is
    reconstructed or offered. *)
Theorem cancellation (ntk : Ntk) (f : kitty.dynamic_truth_table)
    (leaves : list signal) (fn : Ntk → signal → A → bool * A) (a : A)
    (t : N) (cands : list db.signal) (r : Ntk * A * list (signal * bool))
    (j : nat) (c : signal) :
  kitty.extend_to4 f = Some t →
  _repr_to_signal E !! (_repr E t).1.1 = Some cands →
  operator E ntk f leaves fn a = Returned r →
  r.2 !! j = Some (c, false) →
  length r.2 = S j ∧
  operator
    (with_index E (<[(_repr E t).1.1 := take (S j) cands]> (_repr_to_signal E)))
    ntk f leaves fn a = Returned r.
Proof.
  intros Ht Hcands Hop Hj. unfold operator in *. rewrite Ht in *.
  cbn [with_index _repr _repr_to_signal].
  destruct (_repr E t) as [[repr phase] perm]. cbn [fst] in *.
  rewrite Hcands in Hop. rewrite lookup_insert_eq.
  destruct (query_context ntk phase perm leaves) as [st|e]; [|done].
  apply run_candidates_prefix in Hop as (new & Hnew & Hstop).
  rewrite app_nil_l in Hnew. subst new.
  destruct (Hstop j c Hj) as [Hlen Hrun]. split; [exact Hlen|]. exact Hrun.
Qed.

End cancellation.

Lemma cancellation_witness :
  ∃ r, operator (wide := stops_when_wider) library_engine ([] : xnet.network)
         (kitty.mk_dtt 4 0x0287) four_leaves reject_all 0%nat = Returned r ∧
       length r.2 = 1%nat ∧
       operator (wide := stops_when_wider)
         (with_index library_engine
            (<[(_repr library_engine 0x0287).1.1 :=
                 take 1 [db.mk_signal 690 false; db.mk_signal 898 false]]>
               (_repr_to_signal library_engine)))
         ([] : xnet.network) (kitty.mk_dtt 4 0x0287) four_leaves reject_all 0%nat
       = Returned r.
Proof.
  destruct (operator (wide := stops_when_wider) library_engine ([] : xnet.network)
              (kitty.mk_dtt 4 0x0287) four_leaves reject_all 0%nat) as [r|e] eqn:Hr;
    [|vm_compute in Hr; discriminate].
  exists r. split; [reflexivity|].
  assert (Hcall : ∃ c, r.2 !! 0%nat = Some (c, false)).
  { pose proof Hr as Hr'. vm_compute in Hr'. injection Hr' as <-.
    eexists. reflexivity. }
  destruct Hcall as [c Hc].
  apply (cancellation library_engine _ _ _ _ _ 0x0287 _ r 0%nat c).
  - vm_compute. reflexivity.
  - vm_compute. reflexivity.
  - exact Hr.
  - exact Hc.
Defined.

(** ** The query context *)

Section seeding.

Context {Ntk signal : Type} {net : Network Ntk signal}.

Local Open Scope nat_scope.

Lemma seed_input_inv (phase : N) (perm : list nat) (pis : list signal) (i : nat)
    (ntk ntk' : Ntk) (m m' : gmap nat signal) :
  seed_input phase perm pis i (ntk, m) = Some (ntk', m') →
  ∃ p s v, perm !! i = Some p ∧ pis !! p = Some s ∧
    complement_if (N.testbit phase (N.of_nat p)) s ntk = (v, ntk') ∧
    m' = map_insert (i + 1) v m.
Proof.
  unfold seed_input. destruct (perm !! i) as [p|]; [|done]. cbn [mbind option_bind].
  destruct (pis !! p) as [s|] eqn:Hs; [|done]. cbn [mbind option_bind fst snd].
  rewrite bit_at_testbit.
  destruct (complement_if _ s ntk) as [v ntk''] eqn:Hv.
  intros [= <- <-]. exists p, s, v. by repeat split.
Qed.

(** The context of a query that gets as far as the candidates: the chain
    of the four bindings. *)
Lemma query_context_inv (ntk ntk' : Ntk) (phase : N) (perm : list nat)
    (leaves : list signal) (m : gmap nat signal) :
  query_context ntk phase perm leaves = Returned (ntk', m) →
  let c := get_constant ntk false in
  let pis := leaves ++ replicate (4 - length leaves) c in
  length leaves ≤ 4 ∧
  ∃ p0 p1 p2 p3 s0 s1 s2 s3 v0 v1 v2 v3 ntk1 ntk2 ntk3,
    perm !! 0 = Some p0 ∧ perm !! 1 = Some p1 ∧ perm !! 2 = Some p2 ∧ perm !! 3 = Some p3 ∧
    pis !! p0 = Some s0 ∧ pis !! p1 = Some s1 ∧ pis !! p2 = Some s2 ∧ pis !! p3 = Some s3 ∧
    complement_if (N.testbit phase (N.of_nat p0)) s0 ntk = (v0, ntk1) ∧
    complement_if (N.testbit phase (N.of_nat p1)) s1 ntk1 = (v1, ntk2) ∧
    complement_if (N.testbit phase (N.of_nat p2)) s2 ntk2 = (v2, ntk3) ∧
    complement_if (N.testbit phase (N.of_nat p3)) s3 ntk3 = (v3, ntk') ∧
    m = <[4:=v3]> (<[3:=v2]> (<[2:=v1]> (<[1:=v0]> (<[0:=c]> ∅)))).
Proof.
  intros Hctx c pis. unfold query_context in Hctx. fold c in Hctx.
  destruct (decide (length leaves ≤ 4)) as [Hlen|Hlen];
    [|by rewrite std_copy_overrun in Hctx by lia].
  split; [done|]. rewrite std_copy_leaves in Hctx by done. fold pis in Hctx.
  cbn [seq foreach_indexed mbind option_bind] in Hctx.
  destruct (seed_input phase perm pis 0 _) as [[n1 m1]|] eqn:H0; [|done].
  cbn [mbind option_bind] in Hctx.
  destruct (seed_input phase perm pis 1 _) as [[n2 m2]|] eqn:H1; [|done].
  cbn [mbind option_bind] in Hctx.
  destruct (seed_input phase perm pis 2 _) as [[n3 m3]|] eqn:H2; [|done].
  cbn [mbind option_bind] in Hctx.
  destruct (seed_input phase perm pis 3 _) as [[n4 m4]|] eqn:H3; [|done].
  cbn [mbind option_bind] in Hctx. injection Hctx as <- <-.
  apply seed_input_inv in H0 as (p0 & s0 & v0 & ? & ? & ? & ->).
  apply seed_input_inv in H1 as (p1 & s1 & v1 & ? & ? & ? & ->).
  apply seed_input_inv in H2 as (p2 & s2 & v2 & ? & ? & ? & ->).
  apply seed_input_inv in H3 as (p3 & s3 & v3 & ? & ? & ? & ->).
  exists p0, p1, p2, p3, s0, s1, s2, s3, v0, v1, v2, v3, n1, n2, n3.
  repeat (split; [done|]).
  rewrite (map_insert_fresh 0) by done.
  rewrite (map_insert_fresh (0 + 1)) by done.
  rewrite (map_insert_fresh (1 + 1)) by done.
  rewrite (map_insert_fresh (2 + 1)) by done.
  rewrite (map_insert_fresh (3 + 1)) by done.
  done.
Qed.

(** C3, as the code has it. Query-context seeding: primary input [i] of
    the library is bound to the signal at position [permutation[i]] of the
    leaf buffer, negated if and only if bit [permutation[i]] of the
    polarity is set (not bit [i]); the buffer holds the supplied leaves
    and the constant-false signal at the positions beyond them, and node 0
    is bound to the constant-false signal. *)
Theorem query_context_seeding (ntk ntk' : Ntk) (phase : N) (perm : list nat)
    (leaves : list signal) (m : gmap nat signal) (i : nat) :
  query_context ntk phase perm leaves = Returned (ntk', m) →
  i < 4 →
  m !! 0 = Some (get_constant ntk false) ∧
  ∃ p s ntk_i,
    perm !! i = Some p ∧
    (leaves ++ replicate (4 - length leaves) (get_constant ntk false)) !! p = Some s ∧
    (length leaves ≤ p → s = get_constant ntk false) ∧
    m !! (i + 1) = Some (complement_if (N.testbit phase (N.of_nat p)) s ntk_i).1.
Proof.
  intros Hctx Hi. apply query_context_inv in Hctx as (Hlen & Hchain).
  destruct Hchain as (p0 & p1 & p2 & p3 & s0 & s1 & s2 & s3 & v0 & v1 & v2 & v3
    & ntk1 & ntk2 & ntk3 & Hp0 & Hp1 & Hp2 & Hp3 & Hs0 & Hs1 & Hs2 & Hs3
    & Hv0 & Hv1 & Hv2 & Hv3 & ->).
  split; [done|].
  assert (Hpad : ∀ p s,
    (leaves ++ replicate (4 - length leaves) (get_constant ntk false)) !! p = Some s →
    length leaves ≤ p → s = get_constant ntk false).
  { intros p s Hs Hp. rewrite lookup_app_r in Hs by done.
    by apply lookup_replicate in Hs as [-> _]. }
  destruct i as [|[|[|[|i]]]]; [| | | |lia].
  - exists p0, s0, ntk. rewrite Hv0. eauto.
  - exists p1, s1, ntk1. rewrite Hv1. eauto.
  - exists p2, s2, ntk2. rewrite Hv2. eauto.
  - exists p3, s3, ntk3. rewrite Hv3. eauto.
Qed.

End seeding.

Lemma query_context_seeding_witness :
  ∃ ntk' m,
    query_context ([] : xnet.network) 1 [1; 0; 2; 3]%nat four_leaves = Returned (ntk', m) ∧
    m !! 0%nat = Some (xnet.const false) ∧
    ∃ p s ntk_i,
      [1; 0; 2; 3]%nat !! 1%nat = Some p ∧
      (four_leaves ++ replicate (4 - length four_leaves) (xnet.const false)) !! p = Some s ∧
      ((length four_leaves ≤ p)%nat → s = xnet.const false) ∧
      m !! (1 + 1)%nat = Some (complement_if (N.testbit 1 (N.of_nat p)) s ntk_i).1.
Proof.
  destruct (query_context ([] : xnet.network) 1 [1; 0; 2; 3]%nat four_leaves)
    as [[ntk' m]|e] eqn:Hctx; [|vm_compute in Hctx; discriminate].
  exists ntk', m. split; [reflexivity|].
  apply (query_context_seeding _ _ _ _ _ _ 1%nat Hctx). lia.
Defined.

(** C3, as stated, fails: for the function [0x0287], whose representative
    has candidates, the table gives polarity 1 and permutation
    [1, 0, 2, 3]; primary input 0 is bound to leaf 1 as it is, although bit
    0 of the polarity is set. *)
Lemma seeding_by_position_counterexample :
  ∃ repr phase perm ntk' m,
    _repr library_engine 0x0287 = (repr, phase, perm) ∧
    is_Some (_repr_to_signal library_engine !! repr) ∧
    query_context ([] : xnet.network) phase perm four_leaves = Returned (ntk', m) ∧
    ¬ (∀ i p l, (i < 4)%nat → perm !! i = Some p → four_leaves !! p = Some l →
         m !! (i + 1)%nat =
           Some (if N.testbit phase (N.of_nat i) then xnet.inverter l else l)).
Proof.
  exists 0x012d, 1, [1; 0; 2; 3]%nat, [],
    (<[4%nat:=xnet.leaf 3]> (<[3%nat:=xnet.leaf 2]> (<[2%nat:=xnet.inverter (xnet.leaf 0)]>
      (<[1%nat:=xnet.leaf 1]> (<[0%nat:=xnet.const false]> ∅))))).
  split; [vm_compute; reflexivity|]. split; [vm_compute; eauto|].
  split; [vm_compute; reflexivity|].
  intros Hclaim. specialize (Hclaim 0%nat 1%nat (xnet.leaf 1) ltac:(lia) eq_refl eq_refl).
  vm_compute in Hclaim. discriminate.
Qed.

(** ** The classifier *)

Section classifier.

Variable tbl : N → kitty.npn_config.
Variable sim : list N.

Local Open Scope nat_scope.

Lemma register_elem (key : N) (s : db.signal) (idx : gmap N (list db.signal))
    (k : N) (sigs : list db.signal) (x : db.signal) :
  register key s idx !! k = Some sigs → x ∈ sigs →
  (k = key ∧ x = s) ∨ (∃ sigs0, idx !! k = Some sigs0 ∧ x ∈ sigs0).
Proof.
  unfold register. intros Hk Hx.
  destruct (decide (k = key)) as [->|Hne].
  - destruct (idx !! key) as [sigs0|] eqn:Hkey; rewrite lookup_insert_eq in Hk;
      injection Hk as <-.
    + apply elem_of_app in Hx as [Hx|Hx]; [right; eauto|].
      apply list_elem_of_singleton in Hx. by left.
    + apply list_elem_of_singleton in Hx. by left.
  - right. exists sigs. split; [|done].
    by destruct (idx !! key); rewrite lookup_insert_ne in Hk.
Qed.

Lemma classify_node_cases (idx : gmap N (list db.signal)) (n : nat) :
  classify_node tbl sim idx n = idx ∨
  ∃ key s, classify_node tbl sim idx n = register key s idx ∧
           db.index s = n ∧ db.signal_value sim s = key.
Proof.
  unfold classify_node.
  destruct ((tbl (sim !!! n)).1.1 =? sim !!! n)%N.
  { right. by exists (sim !!! n), (db.make_signal n). }
  destruct ((tbl (kitty.tt_not (sim !!! n))).1.1 =? kitty.tt_not (sim !!! n))%N.
  { right. by exists (kitty.tt_not (sim !!! n)), (db.negate (db.make_signal n)). }
  by left.
Qed.

(** The loop over the nodes keeps the index sound: a registered signal is
    a signal of a visited node whose table, with the complement flag
    applied, is the key; and a node is registered by one signal only. *)
Lemma classify_fold (nodes visited : list nat) (idx : gmap N (list db.signal)) :
  NoDup (visited ++ nodes) →
  (∀ k sigs s, idx !! k = Some sigs → s ∈ sigs →
     db.index s ∈ visited ∧ db.signal_value sim s = k ∧
     ∀ k' sigs' s', idx !! k' = Some sigs' → s' ∈ sigs' →
       db.index s' = db.index s → s' = s) →
  ∀ k sigs s,
    fold_left (classify_node tbl sim) nodes idx !! k = Some sigs → s ∈ sigs →
    db.index s ∈ visited ++ nodes ∧ db.signal_value sim s = k ∧
    ∀ k' sigs' s',
      fold_left (classify_node tbl sim) nodes idx !! k' = Some sigs' → s' ∈ sigs' →
      db.index s' = db.index s → s' = s.
Proof.
  revert visited idx. induction nodes as [|n nodes IH]; intros visited idx Hdup Hinv.
  - rewrite app_nil_r. exact Hinv.
  - cbn [fold_left].
    replace (visited ++ n :: nodes) with ((visited ++ [n]) ++ nodes) in *
      by (by rewrite <- app_assoc).
    apply IH; [done|].
    assert (Hn : n ∉ visited).
    { apply NoDup_app in Hdup as [Hdup _]. apply NoDup_app in Hdup as (_ & Hdis & _).
      intros Hin. apply (Hdis n Hin). by left. }
    destruct (classify_node_cases idx n) as [->|(key & s0 & -> & Hs0 & Hval)].
    + intros k sigs s Hk Hs. destruct (Hinv k sigs s Hk Hs) as (Hvis & Hv & Huniq).
      split; [apply elem_of_app; by left|]. by split.
    + assert (Hold : ∀ k sigs s, register key s0 idx !! k = Some sigs → s ∈ sigs →
          s = s0 ∧ k = key ∨ db.index s ∈ visited ∧ db.signal_value sim s = k ∧
            ∀ k' sigs' s', idx !! k' = Some sigs' → s' ∈ sigs' →
              db.index s' = db.index s → s' = s).
      { intros k sigs s Hk Hs.
        destruct (register_elem _ _ _ _ _ _ Hk Hs) as [[-> ->]|(sigs0 & Hk0 & Hs')];
          [by left|right]. by eapply Hinv. }
      intros k sigs s Hk Hs.
      destruct (Hold k sigs s Hk Hs) as [[-> ->]|(Hvis & Hv & Huniq)].
      * split; [apply elem_of_app; right; rewrite Hs0; by left|]. split; [done|].
        intros k' sigs' s' Hk' Hs' Hidx.
        destruct (Hold k' sigs' s' Hk' Hs') as [[-> _]|(Hvis' & _)]; [done|].
        rewrite Hidx, Hs0 in Hvis'. done.
      * split; [apply elem_of_app; by left|]. split; [done|].
        intros k' sigs' s' Hk' Hs' Hidx.
        destruct (Hold k' sigs' s' Hk' Hs') as [[-> _]|(_ & _ & Huniq')].
        -- rewrite <- Hidx, Hs0 in Hvis. done.
        -- destruct (register_elem _ _ _ _ _ _ Hk' Hs') as [[-> ->]|(sigs0 & Hk0 & Hs0')].
           ++ rewrite <- Hidx, Hs0 in Hvis. done.
           ++ by eapply Huniq.
Qed.

End classifier.

Lemma classify_sound (tbl : N → kitty.npn_config) (d : db.network)
    (k : N) (sigs : list db.signal) (s : db.signal) :
  classify tbl d !! k = Some sigs → s ∈ sigs →
  (db.index s < length d)%nat ∧ db.signal_value (db.simulate_nodes d) s = k ∧
  ∀ k' sigs' s', classify tbl d !! k' = Some sigs' → s' ∈ sigs' →
    db.index s' = db.index s → s' = s.
Proof.
  intros Hk Hs.
  destruct (classify_fold tbl (db.simulate_nodes d) (db.nodes d) [] ∅) with k sigs s
    as (Hidx & Hval & Huniq); try done.
  - apply NoDup_seq.
  - split; [|done]. simpl in Hidx. unfold db.nodes in Hidx.
    apply elem_of_seq in Hidx. lia.
Qed.

(** C5. Classifier soundness: after [build_db], the simulated table of the
    node of every signal registered under a key, complemented when the
    signal's flag is set, is the key; and the signals that register one
    node all lie under one key. *)
Theorem classifier_soundness (tbl : N → kitty.npn_config) (encoding : list N)
    (d : db.network) (idx : gmap N (list db.signal)) :
  build_db tbl encoding = Some (d, idx) →
  (∀ k sigs s, idx !! k = Some sigs → s ∈ sigs →
     db.signal_value (db.simulate_nodes d) s = k) ∧
  (∀ k1 sigs1 s1 k2 sigs2 s2,
     idx !! k1 = Some sigs1 → s1 ∈ sigs1 →
     idx !! k2 = Some sigs2 → s2 ∈ sigs2 →
     db.get_node s1 = db.get_node s2 → k1 = k2).
Proof.
  unfold build_db. intros Hbuild.
  destruct (db.decode encoding) as [d'|]; [|done]. injection Hbuild as -> <-.
  split.
  - intros k sigs s Hk Hs. by destruct (classify_sound tbl d k sigs s Hk Hs) as (_ & ? & _).
  - intros k1 sigs1 s1 k2 sigs2 s2 Hk1 Hs1 Hk2 Hs2 Hnode.
    destruct (classify_sound tbl d k1 sigs1 s1 Hk1 Hs1) as (_ & Hv1 & Huniq).
    destruct (classify_sound tbl d k2 sigs2 s2 Hk2 Hs2) as (_ & Hv2 & _).
    rewrite (Huniq k2 sigs2 s2 Hk2 Hs2) in Hv2 by done. congruence.
Qed.

Lemma classifier_soundness_witness :
  (∀ k sigs s, _repr_to_signal library_engine !! k = Some sigs → s ∈ sigs →
     db.signal_value (db.simulate_nodes (_db library_engine)) s = k) ∧
  (∀ k1 sigs1 s1 k2 sigs2 s2,
     _repr_to_signal library_engine !! k1 = Some sigs1 → s1 ∈ sigs1 →
     _repr_to_signal library_engine !! k2 = Some sigs2 → s2 ∈ sigs2 →
     db.get_node s1 = db.get_node s2 → k1 = k2).
Proof.
  apply (classifier_soundness kitty.exact_npn_canonization subgraphs).
  rewrite library_classified. reflexivity.
Defined.


(** Library nodes 690 and 898, the two candidates of the class [0x012d],
    take five gates each and share two of them: copied one after the
    other into one context they create eight gates, not ten, and bind
    eight nodes beside the five of the context. *)
Example shared_subgraph_is_copied_once :
  ∃ r1 st1 r2 st2,
    copy_db_entry (net := counted xnet.ops) library_engine 1785 690
      ((([] : xnet.network), 0%nat),
       list_to_map [(0, xnet.const false); (1, xnet.leaf 0); (2, xnet.leaf 1);
                    (3, xnet.leaf 2); (4, xnet.leaf 3)]%nat) = Some (r1, st1) ∧
    copy_db_entry (net := counted xnet.ops) library_engine 1785 898 st1 = Some (r2, st2) ∧
    st1.1.2 = 5%nat ∧ st2.1.2 = 8%nat ∧ size st1.2 = 10%nat ∧ size st2.2 = 13%nat.
Proof.
  do 4 eexists. split; [vm_compute; reflexivity|].
  split; [vm_compute; reflexivity|]. repeat split; vm_compute; reflexivity.
Qed.

(** ** Soundness of the query *)

Section soundness.

Context {Ntk signal env : Type} {net : Network Ntk signal}.
Variable valid : Ntk → signal → Prop.
Variable sem : Ntk → signal → env → bool.
Hypothesis laws : network_laws valid sem.

Lemma extends_refl (ntk : Ntk) : extends valid sem ntk ntk.
Proof. by intros s Hs. Qed.

Lemma extends_trans (ntk1 ntk2 ntk3 : Ntk) :
  extends valid sem ntk1 ntk2 → extends valid sem ntk2 ntk3 →
  extends valid sem ntk1 ntk3.
Proof.
  intros H12 H23 s Hs. destruct (H12 s Hs) as [Hv2 Hs2].
  destruct (H23 s Hv2) as [Hv3 Hs3]. split; [done|].
  intros e. by rewrite Hs3, Hs2.
Qed.

Lemma complement_if_law (c : bool) (s v : signal) (ntk ntk' : Ntk) :
  complement_if c s ntk = (v, ntk') → valid ntk s →
  extends valid sem ntk ntk' ∧ valid ntk' v ∧
  ∀ e, sem ntk' v e = xorb (sem ntk s e) c.
Proof.
  unfold complement_if. destruct c; intros Hc Hs.
  - destruct (not_law _ _ laws _ _ _ _ Hc Hs) as (Hext & Hv & Hsem).
    split; [done|]. split; [done|]. intros e. rewrite Hsem. by rewrite xorb_true_r.
  - injection Hc as <- <-. split; [apply extends_refl|]. split; [done|].
    intros e. by rewrite xorb_false_r.
Qed.

Lemma context_sound_extends (d : db.network) (inputs : env → N)
    (ntk ntk' : Ntk) (m : gmap nat signal) :
  extends valid sem ntk ntk' →
  context_sound valid sem d inputs (ntk, m) →
  context_sound valid sem d inputs (ntk', m).
Proof.
  intros Hext [Hleaves Hmap]. split; [exact Hleaves|].
  intros k s Hk. destruct (Hmap k s Hk) as [Hv Hs]. cbn [fst snd] in *.
  destruct (Hext s Hv) as [Hv' Hs']. split; [done|]. intros e. by rewrite Hs', Hs.
Qed.

Lemma testbit_signal_value (values : list N) (s : db.signal) (y : N) :
  y < 16 →
  N.testbit (db.signal_value values s) y =
    xorb (N.testbit (values !!! db.index s) y) (db.complement s).
Proof.
  intros Hy. unfold db.signal_value. destruct (db.complement s).
  - rewrite testbit_tt_not by done. by rewrite xorb_true_r.
  - by rewrite xorb_false_r.
Qed.

Lemma map_insert_lookup_inv (n k : nat) (f s : signal) (m : gmap nat signal) :
  map_insert n f m !! k = Some s → m !! k = Some s ∨ (k = n ∧ s = f).
Proof.
  unfold map_insert. destruct (m !! n) eqn:Hn; [by left|].
  destruct (decide (k = n)) as [->|Hne].
  - rewrite lookup_insert_eq. intros [= <-]. by right.
  - rewrite lookup_insert_ne by done. by left.
Qed.

Section copy_sound.

Variable E : engine.
Variable inputs : env → N.
Hypothesis inputs_lt : ∀ e, inputs e < 16.
Hypothesis db_topological : db.topological (_db E).

(** A copy that returns keeps the context sound, extends the network, and
    returns a signal that computes the table of the node. *)
Lemma copy_db_entry_sound (fuel n : nat) (st st' : Ntk * gmap nat signal) (r : signal) :
  copy_db_entry E fuel n st = Some (r, st') →
  context_sound valid sem (_db E) inputs st →
  context_sound valid sem (_db E) inputs st' ∧
  extends valid sem st.1 st'.1 ∧ valid st'.1 r ∧
  ∀ e, sem st'.1 r e = N.testbit (db.simulate_nodes (_db E) !!! n) (inputs e).
Proof.
  revert fuel n st r st'.
  apply (copy_db_entry_rule E (λ n st r st',
    context_sound valid sem (_db E) inputs st →
    context_sound valid sem (_db E) inputs st' ∧
    extends valid sem st.1 st'.1 ∧ valid st'.1 r ∧
    ∀ e, sem st'.1 r e = N.testbit (db.simulate_nodes (_db E) !!! n) (inputs e))).
  - intros n st s Hs Hctx. split; [done|]. split; [apply extends_refl|].
    by apply (proj2 Hctx).
  - intros n ntk m nd f ntk2 Hm Hnd Hnil _ [Hleaves _].
    destruct (Hleaves n nd Hnd Hnil) as [s Hs]. cbn [snd] in Hs. congruence.
  - intros n st nd a b ra ntk_a m_a sa ntk_a' rb ntk_b m_b sb ntk_b' f ntk2
      Hm Hnd Hab IHa Hca IHb Hcb Hf Hctx.
    destruct (IHa Hctx) as (Hctx_a & Hext_a & Hva & Hsa). cbn [fst snd] in *.
    destruct (complement_if_law _ _ _ _ _ Hca Hva) as (Hext_a' & Hvsa & Hsem_sa).
    pose proof (context_sound_extends _ _ _ _ _ Hext_a' Hctx_a) as Hctx_a'.
    destruct (IHb Hctx_a') as (Hctx_b & Hext_b & Hvb & Hsb). cbn [fst snd] in *.
    destruct (complement_if_law _ _ _ _ _ Hcb Hvb) as (Hext_b' & Hvsb & Hsem_sb).
    pose proof (extends_trans _ _ _ Hext_b Hext_b') as Hext_ab.
    destruct (Hext_ab sa Hvsa) as [Hvsa' Hsem_sa'].
    assert (Hgate : ∃ ntk2' : Ntk,
      ntk2' = ntk2 ∧ extends valid sem ntk_b' ntk2 ∧ valid ntk2 f ∧
      ∀ e, sem ntk2 f e = N.testbit (db.simulate_nodes (_db E) !!! n) (inputs e)).
    { exists ntk2. split; [done|].
      rewrite (simulate_nodes_lookup _ _ _ db_topological Hnd).
      unfold db.is_xor in Hf. rewrite Hnd in Hf.
      destruct nd as [| |a' b'|a' b']; simpl in Hab; try done;
        injection Hab as -> ->; cbn [db.node_value].
      - destruct (and_law _ _ laws _ _ _ _ _ Hf Hvsa' Hvsb) as (Hext & Hvf & Hsf).
        split; [done|]. split; [done|]. intros e.
        rewrite Hsf, Hsem_sa', Hsem_sa, Hsa, Hsem_sb, Hsb.
        rewrite N.land_spec, !testbit_signal_value by apply inputs_lt. done.
      - destruct (xor_law _ _ laws _ _ _ _ _ Hf Hvsa' Hvsb) as (Hext & Hvf & Hsf).
        split; [done|]. split; [done|]. intros e.
        rewrite Hsf, Hsem_sa', Hsem_sa, Hsa, Hsem_sb, Hsb.
        rewrite N.lxor_spec, !testbit_signal_value by apply inputs_lt. done. }
    destruct Hgate as (_ & _ & Hext2 & Hvf & Hsf).
    pose proof (context_sound_extends _ _ _ _ _ (extends_trans _ _ _ Hext_b' Hext2) Hctx_b)
      as [Hleaves Hmap].
    split; [|split; [|by split]].
    + split.
      * intros k nd' Hk Hnil. destruct (Hleaves k nd' Hk Hnil) as [s Hs].
        exists s. eapply lookup_weaken; [exact Hs|apply map_insert_subseteq].
      * intros k s Hk. cbn [fst snd] in *.
        apply map_insert_lookup_inv in Hk as [Hk|[-> ->]]; [by apply Hmap|done].
    + apply (extends_trans _ _ _ Hext_a), (extends_trans _ _ _ Hext_a').
      apply (extends_trans _ _ _ Hext_b), (extends_trans _ _ _ Hext_b'). exact Hext2.
Qed.

(** Every call made by the loop over the candidates of the class [repr]
    offers a signal that computes [repr] at the library inputs,
    complemented by bit 4 of the polarity. *)
Lemma run_candidates_sound {A : Type} (fn : Ntk → signal → A → bool * A)
    (phase repr : N) (cands : list db.signal) (st : Ntk * gmap nat signal) (a : A)
    (calls : list (signal * bool)) (r : Ntk * A * list (signal * bool)) :
  (∀ cand, cand ∈ cands →
     db.signal_value (db.simulate_nodes (_db E)) cand = repr) →
  context_sound valid sem (_db E) inputs st →
  (∀ c ok, (c, ok) ∈ calls →
     valid st.1 c ∧
     ∀ e, sem st.1 c e = xorb (N.testbit repr (inputs e)) (N.testbit phase 4)) →
  run_candidates E fn phase cands st a calls = Returned r →
  ∀ c ok, (c, ok) ∈ r.2 →
    valid r.1.1 c ∧
    ∀ e, sem r.1.1 c e = xorb (N.testbit repr (inputs e)) (N.testbit phase 4).
Proof.
  revert st a calls. induction cands as [|cand rest IH];
    intros st a calls Hcands Hctx Hcalls Hrun.
  - injection Hrun as <-. exact Hcalls.
  - cbn [run_candidates] in Hrun.
    destruct (copy_db_entry E (db.size (_db E)) (db.get_node cand) st)
      as [[f [ntk1 m1]]|] eqn:Hcopy; [|done].
    destruct (complement_if (xorb (db.is_complemented cand) (bit_at phase 4)) f ntk1)
      as [out ntk2] eqn:Hout.
    destruct (copy_db_entry_sound _ _ _ _ _ Hcopy Hctx) as (Hctx1 & Hext1 & Hvf & Hsf).
    cbn [fst snd] in *.
    destruct (complement_if_law _ _ _ _ _ Hout Hvf) as (Hext2 & Hvout & Hsout).
    pose proof (extends_trans _ _ _ Hext1 Hext2) as Hext.
    assert (Hcalls' : ∀ c ok, (c, ok) ∈ calls ++ [(out, (fn ntk2 out a).1)] →
      valid ntk2 c ∧
      ∀ e, sem ntk2 c e = xorb (N.testbit repr (inputs e)) (N.testbit phase 4)).
    { intros c ok Hc. apply elem_of_app in Hc as [Hc|Hc].
      - destruct (Hcalls c ok Hc) as [Hvc Hsc]. destruct (Hext c Hvc) as [Hvc' Hsc'].
        split; [done|]. intros e. by rewrite Hsc', Hsc.
      - apply list_elem_of_singleton in Hc. injection Hc as -> _.
        split; [done|]. intros e. rewrite Hsout, Hsf, bit_at_testbit.
        rewrite <- (Hcands cand) by (by left).
        rewrite testbit_signal_value by apply inputs_lt.
        unfold db.get_node, db.is_complemented.
        by destruct (N.testbit _ (inputs e)), (db.complement cand), (N.testbit phase 4). }
    destruct (fn ntk2 out a) as [[|] a'] eqn:Hfn; cbn [fst] in Hcalls'.
    + eapply (IH (ntk2, m1)); [| |exact Hcalls'|exact Hrun].
      * intros cand' Hin. apply Hcands. by right.
      * exact (context_sound_extends _ _ _ _ _ Hext2 Hctx1).
    + injection Hrun as <-. exact Hcalls'.
Qed.

End copy_sound.

End soundness.

Lemma extend_to4_eval {wide : kitty.wide_extension}
    (f : kitty.dynamic_truth_table) (t : N) (inputs : list bool) :
  (kitty.num_vars f ≤ 4)%nat →
  kitty.extend_to4 f = Some t → length inputs = 4%nat →
  N.testbit t (bits_to_N inputs) = kitty.dtt_eval f inputs.
Proof.
  intros Hw. unfold kitty.extend_to4. rewrite decide_True by done. intros Ht Hlen.
  apply (inj Some) in Ht. subst t.
  pose proof (bits_to_N_lt inputs) as Hlt. rewrite Hlen in Hlt.
  change (2 ^ N.of_nat 4) with 16 in Hlt.
  rewrite testbit_bits_to_N_assignments by done.
  unfold kitty.dtt_eval, kitty.tt_eval. by rewrite bits_to_N_take.
Qed.

Lemma roundtrip_testbit (repr phase : N) (perm : list nat) (t x : N) :
  kitty.create_from_npn_config (repr, phase, perm) = t → x < 16 →
  N.testbit t x =
    xorb (N.testbit repr (kitty.permute_index phase perm x)) (N.testbit phase 4).
Proof.
  intros <- Hx. unfold kitty.create_from_npn_config.
  by rewrite testbit_bits_to_N_assignments.
Qed.

Lemma testbit_nth_var (i : nat) (y : N) :
  y < 16 → N.testbit (kitty.nth_var i) y = N.testbit y (N.of_nat i).
Proof. intros Hy. unfold kitty.nth_var. by rewrite testbit_bits_to_N_assignments. Qed.

Section query_soundness.

Context {Ntk signal env : Type} {net : Network Ntk signal}.
Context {wide : kitty.wide_extension}.
Variable valid : Ntk → signal → Prop.
Variable sem : Ntk → signal → env → bool.
Hypothesis laws : network_laws valid sem.

Lemma seeded_lookup (c v0 v1 v2 v3 s : signal) (k : nat) :
  (<[4%nat:=v3]> (<[3%nat:=v2]> (<[2%nat:=v1]> (<[1%nat:=v0]>
     (<[0%nat:=c]> (∅ : gmap nat signal)))))) !! k = Some s →
  (k = 0%nat ∧ s = c) ∨ (k = 1%nat ∧ s = v0) ∨ (k = 2%nat ∧ s = v1) ∨
  (k = 3%nat ∧ s = v2) ∨ (k = 4%nat ∧ s = v3).
Proof.
  intros Hk.
  destruct (decide (k = 4%nat)) as [->|?];
    [|destruct (decide (k = 3%nat)) as [->|?];
      [|destruct (decide (k = 2%nat)) as [->|?];
        [|destruct (decide (k = 1%nat)) as [->|?];
          [|destruct (decide (k = 0%nat)) as [->|?]]]]];
    simplify_map_eq; eauto 10.
Qed.

(** One binding of the seeding loop, relative to the network of the call. *)
Lemma seed_step (b : bool) (s v : signal) (ntk ntk_i ntk_j : Ntk) :
  extends valid sem ntk ntk_i → valid ntk s →
  complement_if b s ntk_i = (v, ntk_j) →
  extends valid sem ntk ntk_j ∧ extends valid sem ntk_i ntk_j ∧ valid ntk_j v ∧
  ∀ e, sem ntk_j v e = xorb (sem ntk s e) b.
Proof.
  intros Hext Hs Hc. destruct (Hext s Hs) as [Hs_i Hsem_i].
  destruct (complement_if_law valid sem laws _ _ _ _ _ Hc Hs_i) as (Hext' & Hv & Hsem).
  split; [by eapply extends_trans|]. split; [done|]. split; [done|].
  intros e. by rewrite Hsem, Hsem_i.
Qed.

(** The context that [query_context] builds is sound for the library
    inputs read off the four bindings, and these are the cut inputs
    permuted and complemented as the transform says. *)
Lemma query_context_sound (d : db.network) (gs : list db.node)
    (ntk ntk' : Ntk) (phase : N) (perm : list nat) (leaves : list signal)
    (m : gmap nat signal) :
  db.topological d →
  d = db.Const :: db.Pi 0 :: db.Pi 1 :: db.Pi 2 :: db.Pi 3 :: gs →
  Forall (λ nd, db.fanins nd ≠ []) gs →
  Forall (valid ntk) leaves →
  query_context ntk phase perm leaves = Returned (ntk', m) →
  ∃ inputs : env → N,
    (∀ e, inputs e < 16) ∧
    (∀ e, inputs e =
          kitty.permute_index phase perm (bits_to_N (cut_inputs sem ntk leaves e))) ∧
    (length leaves ≤ 4)%nat ∧
    context_sound valid sem d inputs (ntk', m).
Proof.
  intros Htopo Hd Hgs Hleaves Hctx.
  apply query_context_inv in Hctx as (Hlen & Hchain).
  destruct Hchain as (p0 & p1 & p2 & p3 & s0 & s1 & s2 & s3 & v0 & v1 & v2 & v3
    & ntk1 & ntk2 & ntk3 & Hp0 & Hp1 & Hp2 & Hp3 & Hs0 & Hs1 & Hs2 & Hs3
    & Hv0 & Hv1 & Hv2 & Hv3 & ->).
  set (c0 := get_constant ntk false) in *.
  set (pis := leaves ++ replicate (4 - length leaves) c0) in *.
  assert (Hpis : ∀ p s, pis !! p = Some s → valid ntk s).
  { intros p s Hs. apply list_elem_of_lookup_2 in Hs.
    apply elem_of_app in Hs as [Hs|Hs].
    - rewrite Forall_forall in Hleaves. by apply Hleaves.
    - apply elem_of_replicate in Hs as [-> _]. apply (constant_valid _ _ laws). }
  destruct (seed_step _ _ _ ntk ntk ntk1 (extends_refl valid sem ntk) (Hpis _ _ Hs0) Hv0)
    as (He1 & _ & Hvv0 & Hsv0).
  destruct (seed_step _ _ _ ntk ntk1 ntk2 He1 (Hpis _ _ Hs1) Hv1)
    as (He2 & He12 & Hvv1 & Hsv1).
  destruct (seed_step _ _ _ ntk ntk2 ntk3 He2 (Hpis _ _ Hs2) Hv2)
    as (He3 & He23 & Hvv2 & Hsv2).
  destruct (seed_step _ _ _ ntk ntk3 ntk' He3 (Hpis _ _ Hs3) Hv3)
    as (He4 & He34 & Hvv3 & Hsv3).
  pose proof (extends_trans valid sem _ _ _ He23 He34) as He24.
  pose proof (extends_trans valid sem _ _ _ He12 He24) as He14.
  destruct (He14 v0 Hvv0) as [Hvv0' Hsv0'].
  destruct (He24 v1 Hvv1) as [Hvv1' Hsv1'].
  destruct (He34 v2 Hvv2) as [Hvv2' Hsv2'].
  destruct (He4 c0 (constant_valid _ _ laws ntk false)) as [Hvc Hsc].
  exists (λ e, bits_to_N [sem ntk' v0 e; sem ntk' v1 e; sem ntk' v2 e; sem ntk' v3 e]).
  assert (Hlt : ∀ e,
    bits_to_N [sem ntk' v0 e; sem ntk' v1 e; sem ntk' v2 e; sem ntk' v3 e] < 16).
  { intros e. apply (bits_to_N_lt [_; _; _; _]). }
  assert (Hcut : ∀ e p s, pis !! p = Some s →
    N.testbit (bits_to_N (cut_inputs sem ntk leaves e)) (N.of_nat p) = sem ntk s e).
  { intros e p s Hs. rewrite testbit_bits_to_N, nth_lookup. unfold cut_inputs.
    fold c0. fold pis. by rewrite list_lookup_fmap, Hs. }
  split; [exact Hlt|]. split; [|split; [done|]].
  - intros e. unfold kitty.permute_index. cbn [seq fmap list_fmap].
    rewrite (list_lookup_total_correct perm 0 p0 Hp0).
    rewrite (list_lookup_total_correct perm 1 p1 Hp1).
    rewrite (list_lookup_total_correct perm 2 p2 Hp2).
    rewrite (list_lookup_total_correct perm 3 p3 Hp3).
    cbv zeta.
    rewrite (Hcut e _ _ Hs0), (Hcut e _ _ Hs1), (Hcut e _ _ Hs2), (Hcut e _ _ Hs3).
    by rewrite Hsv0', Hsv0, Hsv1', Hsv1, Hsv2', Hsv2, Hsv3.
  - split.
    + intros k nd Hk Hnil. subst d.
      destruct k as [|[|[|[|[|k]]]]]; try (by simplify_map_eq).
      cbn in Hk. apply list_elem_of_lookup_2 in Hk.
      rewrite Forall_forall in Hgs. by apply Hgs in Hk.
    + intros k s Hk. cbn [fst snd] in *.
      assert (Hsim : ∀ i nd, d !! i = Some nd →
        db.simulate_nodes d !!! i = db.node_value (db.simulate_nodes d) nd)
        by (intros; by apply simulate_nodes_lookup).
      apply seeded_lookup in Hk
        as [[-> ->]|[[-> ->]|[[-> ->]|[[-> ->]|[-> ->]]]]].
      * split; [done|]. intros e. rewrite (Hsim 0%nat db.Const) by (by rewrite Hd).
        cbn [db.node_value]. rewrite N.bits_0, Hsc. apply (constant_sem _ _ laws).
      * split; [done|]. intros e. rewrite (Hsim 1%nat (db.Pi 0)) by (by rewrite Hd).
        cbn [db.node_value]. rewrite testbit_nth_var by apply Hlt.
        by rewrite (testbit_bits_to_N [_; _; _; _] 0).
      * split; [done|]. intros e. rewrite (Hsim 2%nat (db.Pi 1)) by (by rewrite Hd).
        cbn [db.node_value]. rewrite testbit_nth_var by apply Hlt.
        by rewrite (testbit_bits_to_N [_; _; _; _] 1).
      * split; [done|]. intros e. rewrite (Hsim 3%nat (db.Pi 2)) by (by rewrite Hd).
        cbn [db.node_value]. rewrite testbit_nth_var by apply Hlt.
        by rewrite (testbit_bits_to_N [_; _; _; _] 2).
      * split; [done|]. intros e. rewrite (Hsim 4%nat (db.Pi 3)) by (by rewrite Hd).
        cbn [db.node_value]. rewrite testbit_nth_var by apply Hlt.
        by rewrite (testbit_bits_to_N [_; _; _; _] 3).
Qed.

(** C1. Query soundness: for a query function of at most four inputs,
    every signal that the operator offers to the callback is a signal of
    the resulting network and computes the query function of the cut
    inputs: the supplied leaves, with constant false at the positions
    beyond them. The engine is a constructed one over a library with four
    primary inputs, and the table entry of the function obeys the
    round-trip law. *)
Theorem query_soundness {A : Type} (tbl : N → kitty.npn_config)
    (header : N) (body : list N) (E : engine) (ntk : Ntk)
    (f : kitty.dynamic_truth_table) (leaves : list signal)
    (fn : Ntk → signal → A → bool * A) (a : A) (t : N)
    (r : Ntk * A * list (signal * bool)) (c : signal) (ok : bool) (e : env) :
  make_engine tbl (header :: body) = Some E →
  N.land header 0xFF = 4 →
  Forall (valid ntk) leaves →
  (kitty.num_vars f ≤ 4)%nat →
  kitty.extend_to4 f = Some t →
  kitty.create_from_npn_config (tbl t) = t →
  operator E ntk f leaves fn a = Returned r →
  (c, ok) ∈ r.2 →
  valid r.1.1 c ∧ sem r.1.1 c e = kitty.dtt_eval f (cut_inputs sem ntk leaves e).
Proof.
  intros HE Hpis Hleaves Hwidth Ht Hround Hop Hc.
  destruct (make_engine_inv _ _ _ HE) as (d & Hdec & ->).
  destruct (decode_spec _ _ _ Hdec) as (Htopo & gs & Hd & Hgs).
  rewrite Hpis in Hd. change (N.to_nat 4) with 4%nat in Hd.
  cbn [seq fmap list_fmap app] in Hd.
  unfold operator in Hop. cbn [_repr _repr_to_signal] in Hop. rewrite Ht in Hop.
  destruct (tbl t) as [[repr phase] perm] eqn:Htbl.
  destruct (classify tbl d !! repr) as [cands|] eqn:Hcands;
    [|injection Hop as <-; by apply elem_of_nil in Hc].
  destruct (query_context ntk phase perm leaves) as [[ntk' m]|] eqn:Hctx; [|done].
  destruct (query_context_sound d gs ntk ntk' phase perm leaves m Htopo Hd Hgs Hleaves Hctx)
    as (inputs & Hlt & Hperm & Hlen & Hsound).
  assert (Hclass : ∀ cand, cand ∈ cands →
    db.signal_value (db.simulate_nodes d) cand = repr).
  { intros cand Hin. by destruct (classify_sound tbl d repr cands cand Hcands Hin) as (_ & ? & _). }
  destruct (run_candidates_sound valid sem laws (mk_engine tbl (classify tbl d) d)
              inputs Hlt Htopo fn phase repr cands (ntk', m) a [] r Hclass Hsound)
    with c ok as [Hvalid Hsem]; [by intros ? ? ?%elem_of_nil|exact Hop|exact Hc|].
  split; [exact Hvalid|]. rewrite Hsem, Hperm.
  assert (Hcut : length (cut_inputs sem ntk leaves e) = 4%nat).
  { unfold cut_inputs. rewrite length_fmap, length_app, length_replicate. lia. }
  assert (Hx : bits_to_N (cut_inputs sem ntk leaves e) < 16).
  { pose proof (bits_to_N_lt (cut_inputs sem ntk leaves e)) as Hb.
    rewrite Hcut in Hb. exact Hb. }
  rewrite <- (roundtrip_testbit repr phase perm t _ Hround Hx).
  by apply extend_to4_eval.
Qed.

End query_soundness.

Lemma xnet_laws :
  network_laws (λ (_ : xnet.network) (_ : xnet.signal), True)
               (λ (_ : xnet.network) (s : xnet.signal) (e : nat → bool), xnet.eval s e).
Proof.
  split.
  - done.
  - done.
  - intros a b ntk s ntk' [= <- <-] _ _. by repeat split.
  - intros a b ntk s ntk' [= <- <-] _ _. by repeat split.
  - intros a ntk s ntk' [= <- <-] _. by repeat split.
Qed.

Lemma query_soundness_witness :
  ∃ r c ok,
    operator (wide := stops_when_wider) library_engine ([] : xnet.network)
      (kitty.mk_dtt 4 0x0287) four_leaves accept_all 0%nat = Returned r ∧
    (c, ok) ∈ r.2 ∧
    xnet.eval c (λ i, Nat.even i) =
      kitty.dtt_eval (kitty.mk_dtt 4 0x0287)
        (cut_inputs (λ (_ : xnet.network) s (e : nat → bool), xnet.eval s e)
           [] four_leaves (λ i, Nat.even i)).
Proof.
  destruct (operator (wide := stops_when_wider) library_engine ([] : xnet.network)
              (kitty.mk_dtt 4 0x0287) four_leaves accept_all 0%nat) as [r|x] eqn:Hr;
    [|vm_compute in Hr; discriminate].
  assert (Hcall : ∃ c ok, (c, ok) ∈ r.2).
  { pose proof Hr as Hr'. vm_compute in Hr'. injection Hr' as <-.
    eexists _, _. by left. }
  destruct Hcall as (c & ok & Hc).
  exists r, c, ok. split; [reflexivity|]. split; [exact Hc|].
  refine (proj2 (query_soundness (λ _ _, True) (λ _ s e, xnet.eval s e) xnet_laws
            kitty.exact_npn_canonization (hd 0 subgraphs) (tail subgraphs)
            library_engine [] (kitty.mk_dtt 4 0x0287) four_leaves accept_all 0%nat
            0x0287 r c ok (λ i, Nat.even i) library_built _ _ _ _ _ Hr Hc)).
  - vm_compute. reflexivity.
  - by repeat constructor.
  - simpl. lia.
  - vm_compute. reflexivity.
  - vm_compute. reflexivity.
Defined.

(** ** The query returns *)

Section operator_returns.

Context {Ntk signal A : Type} {net : Network Ntk signal}.
Context {wide : kitty.wide_extension}.

Local Open Scope nat_scope.

Lemma run_candidates_returns (E : engine) (fn : Ntk → signal → A → bool * A)
    (phase : N) (cands : list db.signal) (st : Ntk * gmap nat signal) (a : A)
    (calls : list (signal * bool)) :
  db.topological (_db E) →
  (∀ cand, cand ∈ cands → db.index cand < length (_db E)) →
  ∃ r, run_candidates E fn phase cands st a calls = Returned r.
Proof.
  intros Htopo. revert st a calls.
  induction cands as [|cand rest IH]; intros st a calls Hcands; [by eexists|].
  cbn [run_candidates].
  assert (Hn : db.get_node cand < length (_db E)) by (apply Hcands; by left).
  destruct (copy_db_entry_returns E (db.size (_db E)) (db.get_node cand) st)
    as [[f [ntk1 m1]] ->]; [done|done|pose proof (level_le _ _ Htopo Hn); unfold db.size; lia|].
  destruct (complement_if _ f ntk1) as [out ntk2].
  destruct (fn ntk2 out a) as [[|] a']; [|by eexists].
  apply IH. intros cand' Hin. apply Hcands. by right.
Qed.

(** X1. The query returns: on a constructed engine the operator returns
    for every function that the codec extends, with at most four leaves,
    when the permutation of the table entry names four of the positions
    0..3; no look-up, seeding or copy is left without a result. *)
Lemma operator_returns (tbl : N → kitty.npn_config) (encoding : list N) (E : engine)
    (ntk : Ntk) (f : kitty.dynamic_truth_table) (leaves : list signal)
    (fn : Ntk → signal → A → bool * A) (a : A) (t : N) :
  make_engine tbl encoding = Some E →
  kitty.extend_to4 f = Some t →
  length leaves ≤ 4 →
  (∀ i, i < 4 → ∃ p, (tbl t).2 !! i = Some p ∧ p < 4) →
  ∃ r, operator E ntk f leaves fn a = Returned r.
Proof.
  intros HE Ht Hlen Hperm.
  pose proof (make_engine_topological _ _ _ HE) as Htopo.
  destruct (make_engine_inv _ _ _ HE) as (d & Hdec & ->).
  unfold operator. cbn [_repr _repr_to_signal]. rewrite Ht.
  destruct (tbl t) as [[repr phase] perm]. cbn [snd] in Hperm.
  destruct (classify tbl d !! repr) as [cands|] eqn:Hcands; [|by eexists].
  destruct (query_context_returns ntk phase perm leaves Hlen Hperm) as [st ->].
  apply run_candidates_returns; [done|].
  intros cand Hin. by destruct (classify_sound tbl d repr cands cand Hcands Hin) as (? & _).
Qed.

End operator_returns.

(** ** More on the class index *)

Section class_index.

Variable tbl : N → kitty.npn_config.
Variable sim : list N.

Local Open Scope nat_scope.

Lemma register_lookup (key : N) (s : db.signal) (idx : gmap N (list db.signal)) :
  register key s idx !! key = Some (default [] (idx !! key) ++ [s]).
Proof. unfold register. destruct (idx !! key); by rewrite lookup_insert_eq. Qed.

Lemma register_lookup_ne (key k : N) (s : db.signal) (idx : gmap N (list db.signal)) :
  k ≠ key → register key s idx !! k = idx !! k.
Proof. intros Hne. unfold register. by destruct (idx !! key); rewrite lookup_insert_ne. Qed.

(** The three ways of the loop body, with the tests that select them. *)
Lemma classify_node_spec (idx : gmap N (list db.signal)) (n : nat) :
  let s := sim !!! n in
  ((tbl s).1.1 = s ∧
   classify_node tbl sim idx n = register s (db.make_signal n) idx) ∨
  ((tbl s).1.1 ≠ s ∧ (tbl (kitty.tt_not s)).1.1 = kitty.tt_not s ∧
   classify_node tbl sim idx n
     = register (kitty.tt_not s) (db.negate (db.make_signal n)) idx) ∨
  ((tbl s).1.1 ≠ s ∧ (tbl (kitty.tt_not s)).1.1 ≠ kitty.tt_not s ∧
   classify_node tbl sim idx n = idx).
Proof.
  intros s. unfold classify_node. fold s.
  destruct (N.eqb_spec (tbl s).1.1 s) as [Hs|Hs]; [by left|right].
  destruct (N.eqb_spec (tbl (kitty.tt_not s)).1.1 (kitty.tt_not s)) as [Hf|Hf];
    [by left|by right].
Qed.

(** Every key is a representative, and no key has an empty list. *)
Lemma classify_fold_keys (nodes : list nat) (idx : gmap N (list db.signal)) :
  (∀ k sigs, idx !! k = Some sigs → (tbl k).1.1 = k ∧ sigs ≠ []) →
  ∀ k sigs, fold_left (classify_node tbl sim) nodes idx !! k = Some sigs →
            (tbl k).1.1 = k ∧ sigs ≠ [].
Proof.
  revert idx. induction nodes as [|n nodes IH]; intros idx Hinv; [exact Hinv|].
  cbn [fold_left]. apply IH.
  assert (Hreg : ∀ key s, (tbl key).1.1 = key →
    ∀ k sigs, register key s idx !! k = Some sigs → (tbl k).1.1 = k ∧ sigs ≠ []).
  { intros key s Hkey k sigs Hk. destruct (decide (k = key)) as [->|Hne].
    - rewrite register_lookup in Hk. injection Hk as <-. split; [done|].
      by destruct (default [] (idx !! key)).
    - rewrite register_lookup_ne in Hk by done. by apply Hinv. }
  destruct (classify_node_spec idx n) as [[Hs ->]|[(_ & Hf & ->)|(_ & _ & ->)]].
  - by apply Hreg.
  - by apply Hreg.
  - exact Hinv.
Qed.

(** A registered signal stays registered under its key. *)
Lemma classify_node_mono (idx : gmap N (list db.signal)) (n : nat)
    (k : N) (sigs : list db.signal) (x : db.signal) :
  idx !! k = Some sigs → x ∈ sigs →
  ∃ sigs', classify_node tbl sim idx n !! k = Some sigs' ∧ x ∈ sigs'.
Proof.
  intros Hk Hx.
  assert (Hreg : ∀ key s, ∃ sigs', register key s idx !! k = Some sigs' ∧ x ∈ sigs').
  { intros key s. destruct (decide (k = key)) as [->|Hne].
    - rewrite register_lookup, Hk. eexists. split; [done|].
      apply elem_of_app. by left.
    - rewrite register_lookup_ne by done. eauto. }
  destruct (classify_node_spec idx n) as [[_ ->]|[(_ & _ & ->)|(_ & _ & ->)]]; eauto.
Qed.

Lemma classify_fold_mono (nodes : list nat) (idx : gmap N (list db.signal))
    (k : N) (sigs : list db.signal) (x : db.signal) :
  idx !! k = Some sigs → x ∈ sigs →
  ∃ sigs', fold_left (classify_node tbl sim) nodes idx !! k = Some sigs' ∧ x ∈ sigs'.
Proof.
  revert idx sigs. induction nodes as [|n nodes IH]; intros idx sigs Hk Hx; [eauto|].
  cbn [fold_left].
  destruct (classify_node_mono idx n k sigs x Hk Hx) as (sigs' & Hk' & Hx').
  by eapply IH.
Qed.

(** A signal of the index was there before the loop, or registers one of
    the nodes that the loop visits. *)
Lemma classify_fold_origin (nodes : list nat) (idx : gmap N (list db.signal))
    (k : N) (sigs : list db.signal) (x : db.signal) :
  fold_left (classify_node tbl sim) nodes idx !! k = Some sigs → x ∈ sigs →
  (∃ sigs0, idx !! k = Some sigs0 ∧ x ∈ sigs0) ∨ db.index x ∈ nodes.
Proof.
  revert idx. induction nodes as [|n nodes IH]; intros idx Hk Hx; [left; eauto|].
  cbn [fold_left] in Hk.
  destruct (IH _ Hk Hx) as [(sigs1 & Hk1 & Hx1)|Hin]; [|right; by right].
  destruct (classify_node_cases tbl sim idx n) as [Heq|(key & s & Heq & Hs & _)];
    rewrite Heq in Hk1; [left; eauto|].
  destruct (register_elem _ _ _ _ _ _ Hk1 Hx1) as [[_ ->]|Hold]; [|by left].
  right. rewrite Hs. by left.
Qed.

(** The nodes are visited in increasing order and a signal is appended to
    its list, so every list is in increasing order of nodes. *)
Lemma classify_fold_ascending (len first : nat) (idx : gmap N (list db.signal)) :
  (∀ k sigs, idx !! k = Some sigs →
     (∀ s, s ∈ sigs → db.index s < first) ∧ ascending sigs) →
  ∀ k sigs, fold_left (classify_node tbl sim) (seq first len) idx !! k = Some sigs →
    (∀ s, s ∈ sigs → db.index s < first + len) ∧ ascending sigs.
Proof.
  revert first idx. induction len as [|len IH]; intros first idx Hinv k sigs Hk.
  { destruct (Hinv k sigs Hk) as [Hlt Hasc]. split; [|done].
    intros s Hs. specialize (Hlt s Hs). lia. }
  cbn [seq fold_left] in Hk.
  replace (first + S len) with (S first + len) by lia.
  revert k sigs Hk. apply IH. intros k sigs Hk.
  destruct (classify_node_cases tbl sim idx first) as [Heq|(key & s & Heq & Hs & _)];
    rewrite Heq in Hk.
  { destruct (Hinv k sigs Hk) as [Hlt Hasc]. split; [|done].
    intros x Hx. specialize (Hlt x Hx). lia. }
  destruct (decide (k = key)) as [->|Hne].
  - rewrite register_lookup in Hk. injection Hk as <-.
    assert (Hold : (∀ x, x ∈ default [] (idx !! key) → db.index x < first) ∧
                   ascending (default [] (idx !! key))).
    { destruct (idx !! key) as [sigs0|] eqn:Hkey; [exact (Hinv key sigs0 Hkey)|].
      split; [by intros x ?%elem_of_nil|]. by intros i j a b _ ?. }
    destruct Hold as [Hlt Hasc]. split.
    + intros x Hx. apply elem_of_app in Hx as [Hx|Hx]; [specialize (Hlt x Hx); lia|].
      apply list_elem_of_singleton in Hx. subst x. lia.
    + intros i j a b Hij Ha Hb.
      destruct (decide (j < length (default [] (idx !! key)))) as [Hj|Hj].
      * rewrite lookup_app_l in Ha, Hb by lia. exact (Hasc i j a b Hij Ha Hb).
      * rewrite lookup_app_r in Hb by lia.
        destruct (j - length _) as [|j'] eqn:Hjl; [|done].
        injection Hb as <-. assert (Hi : i < length (default [] (idx !! key))) by lia.
        rewrite lookup_app_l in Ha by done.
        apply list_elem_of_lookup_2 in Ha. specialize (Hlt a Ha). lia.
  - rewrite register_lookup_ne in Hk by done.
    destruct (Hinv k sigs Hk) as [Hlt Hasc]. split; [|done].
    intros x Hx. specialize (Hlt x Hx). lia.
Qed.

End class_index.

Lemma build_db_inv (tbl : N → kitty.npn_config) (encoding : list N)
    (d : db.network) (idx : gmap N (list db.signal)) :
  build_db tbl encoding = Some (d, idx) →
  db.decode encoding = Some d ∧ idx = classify tbl d.
Proof.
  unfold build_db. intros Hbuild.
  destruct (db.decode encoding) as [d'|]; [|done]. by injection Hbuild as -> <-.
Qed.

Lemma library_index :
  build_db kitty.exact_npn_canonization subgraphs
    = Some (_db library_engine, _repr_to_signal library_engine).
Proof. rewrite library_classified. reflexivity. Qed.

(** X4. The key set of the class index: after [build_db], every key of
    [_repr_to_signal] is the representative of its own class in the table
    that classified the library, and its list of candidates is not
    empty. *)
Theorem class_keys_are_representatives (tbl : N → kitty.npn_config)
    (encoding : list N) (d : db.network) (idx : gmap N (list db.signal))
    (k : N) (sigs : list db.signal) :
  build_db tbl encoding = Some (d, idx) →
  idx !! k = Some sigs →
  (tbl k).1.1 = k ∧ sigs ≠ [].
Proof.
  intros [_ ->]%build_db_inv Hk.
  apply (classify_fold_keys tbl (db.simulate_nodes d) (db.nodes d) ∅); [|exact Hk].
  intros k' sigs' Hk'. by rewrite lookup_empty in Hk'.
Qed.

Lemma class_keys_are_representatives_witness :
  (kitty.exact_npn_canonization 0x000F).1.1 = 0x000F ∧ [db.mk_signal 33 false] ≠ [].
Proof.
  apply (class_keys_are_representatives kitty.exact_npn_canonization subgraphs
           (_db library_engine) (_repr_to_signal library_engine) 0x000F).
  - exact library_index.
  - vm_compute. reflexivity.
Defined.

(** X5. Classifier completeness: [build_db] registers every node of the
    library whose table, or whose complemented table, is a
    representative: under its table with the plain signal in the first
    case, under the complemented table with the complemented signal in
    the second (the first test has priority); a node that passes neither
    test is registered nowhere. *)
Theorem classifier_completeness (tbl : N → kitty.npn_config) (encoding : list N)
    (d : db.network) (idx : gmap N (list db.signal)) (n : nat) :
  build_db tbl encoding = Some (d, idx) →
  (n < db.size d)%nat →
  let s := db.simulate_nodes d !!! n in
  ((tbl s).1.1 = s →
   ∃ sigs, idx !! s = Some sigs ∧ db.make_signal n ∈ sigs) ∧
  ((tbl s).1.1 ≠ s → (tbl (kitty.tt_not s)).1.1 = kitty.tt_not s →
   ∃ sigs, idx !! kitty.tt_not s = Some sigs ∧ db.negate (db.make_signal n) ∈ sigs) ∧
  ((tbl s).1.1 ≠ s → (tbl (kitty.tt_not s)).1.1 ≠ kitty.tt_not s →
   ∀ k sigs x, idx !! k = Some sigs → x ∈ sigs → db.index x ≠ n).
Proof.
  intros [_ ->]%build_db_inv Hn s. unfold db.size in Hn.
  unfold classify, db.nodes.
  assert (Hsplit : seq 0 (length d) = seq 0 n ++ n :: seq (S n) (length d - S n)).
  { replace (length d) with (n + S (length d - S n))%nat at 1 by lia.
    by rewrite seq_app. }
  rewrite Hsplit, fold_left_app. cbn [fold_left].
  set (sim := db.simulate_nodes d) in *.
  set (idx1 := fold_left (classify_node tbl sim) (seq 0 n) ∅).
  assert (Hpre : ∀ k sigs x, idx1 !! k = Some sigs → x ∈ sigs → db.index x ≠ n).
  { intros k sigs x Hk Hx.
    destruct (classify_fold_origin tbl sim _ _ _ _ _ Hk Hx) as [(? & Hk0 & _)|Hin].
    - by rewrite lookup_empty in Hk0.
    - apply elem_of_seq in Hin. lia. }
  assert (Hreg : ∀ key x,
    ∃ sigs, fold_left (classify_node tbl sim) (seq (S n) (length d - S n))
              (register key x idx1) !! key = Some sigs ∧ x ∈ sigs).
  { intros key x. eapply classify_fold_mono; [apply register_lookup|].
    apply elem_of_app. right. by left. }
  pose proof (classify_node_spec tbl sim idx1 n) as Hcases. cbv zeta in Hcases.
  subst s.
  destruct Hcases as [[Hs ->]|[(Hs & Hf & ->)|(Hs & Hf & ->)]].
  - split; [intros _; apply Hreg|]. split; [done|done].
  - split; [done|]. split; [intros _ _; apply Hreg|done].
  - split; [done|]. split; [done|]. intros _ _ k sigs x Hk Hx.
    destruct (classify_fold_origin tbl sim _ _ _ _ _ Hk Hx) as [(sigs0 & Hk0 & Hx0)|Hin].
    + by eapply Hpre.
    + apply elem_of_seq in Hin. lia.
Qed.

Lemma classifier_completeness_witness :
  (33 < db.size (_db library_engine))%nat ∧
  let s := db.simulate_nodes (_db library_engine) !!! 33%nat in
  ((kitty.exact_npn_canonization s).1.1 = s →
   ∃ sigs, _repr_to_signal library_engine !! s = Some sigs ∧ db.make_signal 33 ∈ sigs) ∧
  ((kitty.exact_npn_canonization s).1.1 ≠ s →
   (kitty.exact_npn_canonization (kitty.tt_not s)).1.1 = kitty.tt_not s →
   ∃ sigs, _repr_to_signal library_engine !! kitty.tt_not s = Some sigs ∧
           db.negate (db.make_signal 33) ∈ sigs) ∧
  ((kitty.exact_npn_canonization s).1.1 ≠ s →
   (kitty.exact_npn_canonization (kitty.tt_not s)).1.1 ≠ kitty.tt_not s →
   ∀ k sigs x, _repr_to_signal library_engine !! k = Some sigs → x ∈ sigs →
               db.index x ≠ 33%nat).
Proof.
  assert (Hn : (33 < db.size (_db library_engine))%nat) by (vm_compute; lia).
  split; [exact Hn|].
  exact (classifier_completeness kitty.exact_npn_canonization subgraphs
           (_db library_engine) (_repr_to_signal library_engine) 33
           library_index Hn).
Defined.

(** X6. Order of the candidates: the candidates of a class are kept in
    the order in which [foreach_node] found them, which is the order of
    their node identifiers; so a class lists no node twice, and the query
    offers the candidates in increasing order of nodes. *)
Theorem candidates_in_node_order (tbl : N → kitty.npn_config) (encoding : list N)
    (d : db.network) (idx : gmap N (list db.signal))
    (k : N) (sigs : list db.signal) :
  build_db tbl encoding = Some (d, idx) →
  idx !! k = Some sigs →
  ascending sigs ∧ NoDup (db.get_node <$> sigs).
Proof.
  intros [_ ->]%build_db_inv Hk.
  destruct (classify_fold_ascending tbl (db.simulate_nodes d) (length d) 0 ∅)
    with k sigs as [_ Hasc]; [|exact Hk|].
  { intros k' sigs' Hk'. by rewrite lookup_empty in Hk'. }
  split; [exact Hasc|].
  apply NoDup_alt. intros i j n Hi Hj.
  rewrite list_lookup_fmap in Hi, Hj.
  destruct (sigs !! i) as [a|] eqn:Ha; [|done].
  destruct (sigs !! j) as [b|] eqn:Hb; [|done].
  injection Hi as Hi. injection Hj as Hj. unfold db.get_node in Hi, Hj.
  destruct (Nat.lt_total i j) as [Hlt|[Heq|Hgt]]; [|done|].
  - pose proof (Hasc i j a b Hlt Ha Hb). lia.
  - pose proof (Hasc j i b a Hgt Hb Ha). lia.
Qed.

Lemma candidates_in_node_order_witness :
  ascending [db.mk_signal 690 false; db.mk_signal 898 false] ∧
  NoDup (db.get_node <$> [db.mk_signal 690 false; db.mk_signal 898 false]).
Proof.
  apply (candidates_in_node_order kitty.exact_npn_canonization subgraphs
           (_db library_engine) (_repr_to_signal library_engine) 0x012d).
  - exact library_index.
  - vm_compute. reflexivity.
Defined.

(** X7. The statistics of [build_db]: the number of covered classes that
    the constructor reports is at most the size of the library that it
    reports, since every class holds a node of its own; the sizes are
    those of [_repr_to_signal] and [_db], as long as the library size fits
    the 32-bit counter. *)
Theorem covered_classes_at_most_db_size (tbl : N → kitty.npn_config)
    (encoding : list N) (d : db.network) (idx : gmap N (list db.signal)) :
  build_db tbl encoding = Some (d, idx) →
  (N.of_nat (db.size d) < 2 ^ 32)%N →
  db_size (build_db_stats d idx) = N.of_nat (db.size d) ∧
  covered_classes (build_db_stats d idx) = N.of_nat (size idx) ∧
  (covered_classes (build_db_stats d idx) <= db_size (build_db_stats d idx))%N.
Proof.
  intros [_ ->]%build_db_inv Hfit.
  set (first := λ p : N * list db.signal, db.index (default (db.make_signal 0) (head p.2))).
  assert (Hhead : ∀ k sigs, classify tbl d !! k = Some sigs →
    ∃ s, head sigs = Some s ∧ s ∈ sigs).
  { intros k sigs Hk.
    destruct (classify_fold_keys tbl (db.simulate_nodes d) (db.nodes d) ∅) with k sigs
      as [_ Hne]; [|exact Hk|].
    { intros k' sigs' Hk'. by rewrite lookup_empty in Hk'. }
    destruct sigs as [|s sigs]; [done|]. exists s. split; [done|by left]. }
  assert (Hdup : NoDup (first <$> map_to_list (classify tbl d))).
  { apply NoDup_fmap_2_strong; [|apply NoDup_map_to_list].
    intros [k1 sigs1] [k2 sigs2] H1%elem_of_map_to_list H2%elem_of_map_to_list Heq.
    destruct (Hhead _ _ H1) as (s1 & Hh1 & Hs1).
    destruct (Hhead _ _ H2) as (s2 & Hh2 & Hs2).
    unfold first in Heq. cbn [snd] in Heq. rewrite Hh1, Hh2 in Heq. cbn in Heq.
    destruct (classify_sound tbl d k1 sigs1 s1 H1 Hs1) as (_ & Hv1 & Huniq).
    destruct (classify_sound tbl d k2 sigs2 s2 H2 Hs2) as (_ & Hv2 & _).
    rewrite (Huniq k2 sigs2 s2 H2 Hs2) in Hv2 by done.
    assert (k1 = k2) as -> by congruence. congruence. }
  assert (Hsub : ∀ n, n ∈ first <$> map_to_list (classify tbl d) → n ∈ seq 0 (length d)).
  { intros n Hin. apply list_elem_of_fmap in Hin as ([k sigs] & -> & Hin).
    apply elem_of_map_to_list in Hin.
    destruct (Hhead _ _ Hin) as (s & Hh & Hs).
    unfold first. cbn [snd]. rewrite Hh. cbn.
    destruct (classify_sound tbl d k sigs s Hin Hs) as (Hlt & _).
    apply elem_of_seq. lia. }
  pose proof (submseteq_length _ _ (NoDup_submseteq _ _ Hdup Hsub)) as Hle.
  rewrite length_fmap, length_map_to_list, length_seq in Hle.
  unfold build_db_stats, uint32, db.size in *. cbn [db_size covered_classes].
  rewrite !N.mod_small by lia. split; [done|]. split; [done|lia].
Qed.

Lemma covered_classes_at_most_db_size_witness :
  db_size (build_db_stats (_db library_engine) (_repr_to_signal library_engine))
    = N.of_nat (db.size (_db library_engine)) ∧
  covered_classes (build_db_stats (_db library_engine) (_repr_to_signal library_engine))
    = N.of_nat (size (_repr_to_signal library_engine)) ∧
  (covered_classes (build_db_stats (_db library_engine) (_repr_to_signal library_engine))
   <= db_size (build_db_stats (_db library_engine) (_repr_to_signal library_engine)))%N.
Proof.
  apply (covered_classes_at_most_db_size kitty.exact_npn_canonization subgraphs).
  - exact library_index.
  - vm_compute. reflexivity.
Defined.

(** ** More on the query: calls, map and seeding *)

Lemma operator_returns_witness :
  ∃ r, operator (wide := stops_when_wider) library_engine ([] : xnet.network)
         (kitty.mk_dtt 2 0x8) [xnet.leaf 0; xnet.leaf 1] accept_all 0%nat = Returned r.
Proof.
  apply (operator_returns kitty.exact_npn_canonization subgraphs library_engine
           _ _ _ _ _ 0x8888 library_built).
  - vm_compute. reflexivity.
  - simpl. lia.
  - intros i Hi.
    destruct i as [|[|[|[|i]]]]; [| | | |lia]; vm_compute; eexists; (split; [reflexivity|lia]).
Defined.

Section query_shape.

Context {Ntk signal A : Type} {net : Network Ntk signal}.
Context {wide : kitty.wide_extension}.
Variable E : engine.

Local Open Scope nat_scope.

(** The loop over the candidates calls the callback for a candidate after
    the other, and goes on after an answer [true]. *)
Lemma run_candidates_calls (fn : Ntk → signal → A → bool * A) (phase : N)
    (cands : list db.signal) (st : Ntk * gmap nat signal) (a : A)
    (calls : list (signal * bool)) (r : Ntk * A * list (signal * bool)) :
  run_candidates E fn phase cands st a calls = Returned r →
  ∃ new, r.2 = calls ++ new ∧ length new ≤ length cands ∧
    (cands ≠ [] → new ≠ []) ∧
    (Forall (λ c, c.2 = true) new → length new = length cands).
Proof.
  revert st a calls. induction cands as [|cand rest IH]; intros st a calls Hrun.
  - injection Hrun as <-. exists []. by rewrite app_nil_r.
  - cbn [run_candidates] in Hrun.
    destruct (copy_db_entry E (db.size (_db E)) (db.get_node cand) st)
      as [[f [ntk1 m1]]|]; [|done].
    destruct (complement_if (xorb (db.is_complemented cand) (bit_at phase 4)) f ntk1)
      as [out ntk2].
    destruct (fn ntk2 out a) as [[|] a'].
    + apply IH in Hrun as (new & Hnew & Hlen & _ & Hall).
      exists ((out, true) :: new). split; [by rewrite Hnew, <- app_assoc|].
      split; [simpl; lia|]. split; [done|].
      intros Htrue. apply Forall_cons in Htrue as [_ Htrue].
      simpl. by rewrite Hall.
    + injection Hrun as <-. exists [(out, false)]. split; [done|].
      split; [simpl; lia|]. split; [done|].
      intros Htrue. by apply Forall_cons in Htrue as [? _].
Qed.

(** X3. The calls of a query follow the candidates of the class: the
    callback is called at most once per candidate and at least once when
    the class has a candidate, and when it never answers [false] it is
    called once for every candidate of the class. *)
Theorem callback_calls_follow_candidates (ntk : Ntk) (f : kitty.dynamic_truth_table)
    (leaves : list signal) (fn : Ntk → signal → A → bool * A) (a : A) (t : N)
    (cands : list db.signal) (r : Ntk * A * list (signal * bool)) :
  kitty.extend_to4 f = Some t →
  _repr_to_signal E !! (_repr E t).1.1 = Some cands →
  operator E ntk f leaves fn a = Returned r →
  length r.2 ≤ length cands ∧
  (cands ≠ [] → r.2 ≠ []) ∧
  (Forall (λ c, c.2 = true) r.2 → length r.2 = length cands).
Proof.
  intros Ht Hcands Hop. unfold operator in Hop. rewrite Ht in Hop.
  destruct (_repr E t) as [[repr phase] perm]. cbn [fst] in Hcands.
  rewrite Hcands in Hop.
  destruct (query_context ntk phase perm leaves) as [st|]; [|done].
  apply run_candidates_calls in Hop as (new & Hnew & Hlen & Hne & Hall).
  rewrite app_nil_l in Hnew. by rewrite Hnew.
Qed.

(** What a copy that returns does to the map of the query. *)
Lemma copy_db_entry_closed (fuel n : nat) (st st' : Ntk * gmap nat signal) (r : signal) :
  copy_db_entry E fuel n st = Some (r, st') →
  st.2 ⊆ st'.2 ∧ is_Some (st'.2 !! n) ∧
  (fanin_closed (_db E) st.2 → fanin_closed (_db E) st'.2).
Proof.
  revert fuel n st r st'.
  apply (copy_db_entry_rule E (λ n st r st',
    st.2 ⊆ st'.2 ∧ is_Some (st'.2 !! n) ∧
    (fanin_closed (_db E) st.2 → fanin_closed (_db E) st'.2))).
  - intros n st s Hs. split; [done|]. split; [by eexists|done].
  - intros n ntk m nd f ntk2 Hm Hnd Hnil _. cbn [fst snd].
    split; [apply map_insert_subseteq|].
    split; [rewrite map_insert_fresh by done; rewrite lookup_insert_eq; by eexists|].
    intros Hclosed k [s Hk].
    apply map_insert_lookup_inv in Hk as [Hk|[-> _]].
    + destruct (Hclosed k) as (nd' & Hnd' & Hfan); [by eexists|].
      exists nd'. split; [done|]. intros x Hx. destruct (Hfan x Hx) as [v Hv].
      exists v. eapply lookup_weaken; [exact Hv|apply map_insert_subseteq].
    + exists nd. split; [done|]. rewrite Hnil. by intros x ?%elem_of_nil.
  - intros n st nd a b ra ntk_a m_a sa ntk_a' rb ntk_b m_b sb ntk_b' f ntk2
      Hm Hnd Hab (Hsub_a & [va Hva] & Hcl_a) _ (Hsub_b & [vb Hvb] & Hcl_b) _ _.
    cbn [fst snd] in *.
    assert (Hsub : m_b ⊆ map_insert n f m_b) by apply map_insert_subseteq.
    split; [by do 2 (etrans; [eassumption|])|].
    split.
    { unfold map_insert. destruct (m_b !! n) as [v|] eqn:Hn; [by rewrite Hn|].
      rewrite lookup_insert_eq. by eexists. }
    intros Hclosed k [s Hk].
    apply map_insert_lookup_inv in Hk as [Hk|[-> _]].
    + destruct (Hcl_b (Hcl_a Hclosed) k) as (nd' & Hnd' & Hfan); [by eexists|].
      exists nd'. split; [done|]. intros x Hx. destruct (Hfan x Hx) as [v Hv].
      exists v. by eapply lookup_weaken.
    + exists nd. split; [done|]. rewrite Hab. intros x Hx.
      apply elem_of_cons in Hx as [->|Hx].
      * exists va. eapply lookup_weaken; [|exact Hsub].
        by eapply lookup_weaken.
      * apply list_elem_of_singleton in Hx. subst x.
        exists vb. by eapply lookup_weaken.
Qed.

(** X9. The map of a query stays closed: when the map binds library
    nodes only, and with every gate both nodes of its fanins, so it does
    after a copy; the copy keeps all its bindings and binds the node that
    was asked for. A gate is bound only after the nodes below it. *)
Theorem copy_keeps_map_closed (fuel n : nat) (st st' : Ntk * gmap nat signal)
    (r : signal) :
  fanin_closed (_db E) st.2 →
  copy_db_entry E fuel n st = Some (r, st') →
  fanin_closed (_db E) st'.2 ∧ st.2 ⊆ st'.2 ∧ is_Some (st'.2 !! n).
Proof.
  intros Hclosed Hcopy.
  destruct (copy_db_entry_closed fuel n st st' r Hcopy) as (Hsub & Hn & Hcl).
  split; [by apply Hcl|by split].
Qed.

Lemma low_polarity_clear (phase : N) (p : nat) :
  N.land phase 15 = 0%N → p < 4 → N.testbit phase (N.of_nat p) = false.
Proof.
  intros Hlow Hp.
  assert (Hbit : N.testbit (N.land phase 15) (N.of_nat p) = false)
    by (rewrite Hlow; apply N.bits_0).
  rewrite N.land_spec in Hbit.
  destruct p as [|[|[|[|p]]]]; [| | | |lia]; by rewrite andb_true_r in Hbit.
Qed.

(** X10. Seeding without input polarity: when no input bit of the
    polarity is set, the seeding of a query creates nothing: the network
    is the one of the call, and primary input [i] is bound to the very
    signal at position [permutation[i]] of the leaf buffer. *)
Theorem seeding_without_polarity (ntk ntk' : Ntk) (phase : N) (perm : list nat)
    (leaves : list signal) (m : gmap nat signal) :
  N.land phase 15 = 0%N →
  query_context ntk phase perm leaves = Returned (ntk', m) →
  ntk' = ntk ∧
  ∀ i, i < 4 →
    ∃ p, perm !! i = Some p ∧
         m !! (i + 1) =
           (leaves ++ replicate (4 - length leaves) (get_constant ntk false)) !! p.
Proof.
  intros Hlow Hctx.
  apply query_context_inv in Hctx as (Hlen & Hchain).
  destruct Hchain as (p0 & p1 & p2 & p3 & s0 & s1 & s2 & s3 & v0 & v1 & v2 & v3
    & ntk1 & ntk2 & ntk3 & Hp0 & Hp1 & Hp2 & Hp3 & Hs0 & Hs1 & Hs2 & Hs3
    & Hv0 & Hv1 & Hv2 & Hv3 & ->).
  assert (Hpis : ∀ p s,
    (leaves ++ replicate (4 - length leaves) (get_constant ntk false)) !! p = Some s →
    p < 4).
  { intros p s Hs. apply lookup_lt_Some in Hs.
    rewrite length_app, length_replicate in Hs. lia. }
  rewrite (low_polarity_clear phase p0 Hlow (Hpis _ _ Hs0)) in Hv0.
  rewrite (low_polarity_clear phase p1 Hlow (Hpis _ _ Hs1)) in Hv1.
  rewrite (low_polarity_clear phase p2 Hlow (Hpis _ _ Hs2)) in Hv2.
  rewrite (low_polarity_clear phase p3 Hlow (Hpis _ _ Hs3)) in Hv3.
  unfold complement_if in Hv0, Hv1, Hv2, Hv3.
  injection Hv0 as <- <-. injection Hv1 as <- <-.
  injection Hv2 as <- <-. injection Hv3 as <- <-.
  split; [done|]. intros i Hi.
  destruct i as [|[|[|[|i]]]]; [| | | |lia]; cbn [Nat.add].
  - exists p0. split; [done|]. rewrite Hs0.
    by rewrite !lookup_insert_ne, lookup_insert_eq by lia.
  - exists p1. split; [done|]. rewrite Hs1.
    by rewrite !lookup_insert_ne, lookup_insert_eq by lia.
  - exists p2. split; [done|]. rewrite Hs2.
    by rewrite !lookup_insert_ne, lookup_insert_eq by lia.
  - exists p3. split; [done|]. rewrite Hs3. by rewrite lookup_insert_eq.
Qed.

(** X11. The map of a query, before the candidates: it binds the
    constant node and the four primary inputs of the library, and nothing
    else, however many leaves are supplied. *)
Theorem seeded_nodes (ntk ntk' : Ntk) (phase : N) (perm : list nat)
    (leaves : list signal) (m : gmap nat signal) (k : nat) :
  query_context ntk phase perm leaves = Returned (ntk', m) →
  is_Some (m !! k) ↔ k ≤ 4.
Proof.
  intros Hctx.
  apply query_context_inv in Hctx as (Hlen & Hchain).
  destruct Hchain as (p0 & p1 & p2 & p3 & s0 & s1 & s2 & s3 & v0 & v1 & v2 & v3
    & ntk1 & ntk2 & ntk3 & _ & _ & _ & _ & _ & _ & _ & _ & _ & _ & _ & _ & ->).
  split.
  - intros [s Hs].
    apply seeded_lookup in Hs as [[-> _]|[[-> _]|[[-> _]|[[-> _]|[-> _]]]]]; lia.
  - intros Hk.
    destruct k as [|[|[|[|[|k]]]]]; [| | | | |lia].
    + rewrite !lookup_insert_ne, lookup_insert_eq by lia. by eexists.
    + rewrite !lookup_insert_ne, lookup_insert_eq by lia. by eexists.
    + rewrite !lookup_insert_ne, lookup_insert_eq by lia. by eexists.
    + rewrite !lookup_insert_ne, lookup_insert_eq by lia. by eexists.
    + rewrite lookup_insert_eq. by eexists.
Qed.

End query_shape.

Lemma callback_calls_follow_candidates_witness :
  ∃ r, operator (wide := stops_when_wider) library_engine ([] : xnet.network)
         (kitty.mk_dtt 4 0x0287) four_leaves accept_all 0%nat = Returned r ∧
       (length r.2 ≤ 2)%nat ∧
       ([db.mk_signal 690 false; db.mk_signal 898 false] ≠ [] → r.2 ≠ []) ∧
       (Forall (λ c, c.2 = true) r.2 → length r.2 = 2%nat).
Proof.
  destruct (operator (wide := stops_when_wider) library_engine ([] : xnet.network)
              (kitty.mk_dtt 4 0x0287) four_leaves accept_all 0%nat) as [r|x] eqn:Hr;
    [|vm_compute in Hr; discriminate].
  exists r. split; [reflexivity|].
  apply (callback_calls_follow_candidates (wide := stops_when_wider)
           library_engine [] (kitty.mk_dtt 4 0x0287)
           four_leaves accept_all 0%nat 0x0287
           [db.mk_signal 690 false; db.mk_signal 898 false] r).
  - vm_compute. reflexivity.
  - vm_compute. reflexivity.
  - exact Hr.
Defined.

Lemma copy_keeps_map_closed_witness :
  ∃ r st',
    copy_db_entry library_engine 1785 690 (([] : xnet.network), ∅) = Some (r, st') ∧
    fanin_closed (_db library_engine) st'.2 ∧
    (∅ : gmap nat xnet.signal) ⊆ st'.2 ∧ is_Some (st'.2 !! 690%nat).
Proof.
  pose proof (make_engine_topological _ _ _ library_built) as Htopo.
  assert (Hsize : length (_db library_engine) = 1785%nat) by (vm_compute; reflexivity).
  destruct (copy_db_entry_returns library_engine 1785 690 (([] : xnet.network), ∅))
    as [[r st'] Hcopy]; [done|lia|pose proof (level_le _ 690 Htopo); lia|].
  exists r, st'. split; [exact Hcopy|].
  apply (copy_keeps_map_closed library_engine 1785 690 (([] : xnet.network), ∅) st' r);
    [|exact Hcopy].
  intros k [s Hk]. cbn [snd] in Hk. by rewrite lookup_empty in Hk.
Defined.

Lemma seeding_without_polarity_witness :
  ∃ ntk' m,
    query_context ([] : xnet.network) 16 [2; 0; 3; 1]%nat [xnet.leaf 0; xnet.leaf 1]
      = Returned (ntk', m) ∧
    ntk' = [] ∧
    ∀ i, (i < 4)%nat →
      ∃ p, [2; 0; 3; 1]%nat !! i = Some p ∧
           m !! (i + 1)%nat =
             ([xnet.leaf 0; xnet.leaf 1]
                ++ replicate (4 - length [xnet.leaf 0; xnet.leaf 1])
                     (get_constant ([] : xnet.network) false)) !! p.
Proof.
  destruct (query_context ([] : xnet.network) 16 [2; 0; 3; 1]%nat
              [xnet.leaf 0; xnet.leaf 1]) as [[ntk' m]|x] eqn:Hctx;
    [|vm_compute in Hctx; discriminate].
  exists ntk', m. split; [reflexivity|].
  apply (seeding_without_polarity ([] : xnet.network) ntk' 16 [2; 0; 3; 1]%nat
           [xnet.leaf 0; xnet.leaf 1] m); [reflexivity|exact Hctx].
Defined.

Lemma seeded_nodes_witness :
  ∃ ntk' m,
    query_context ([] : xnet.network) 1 [1; 0; 2; 3]%nat four_leaves
      = Returned (ntk', m) ∧
    (is_Some (m !! 3%nat) ↔ (3 ≤ 4)%nat).
Proof.
  destruct (query_context ([] : xnet.network) 1 [1; 0; 2; 3]%nat four_leaves)
    as [[ntk' m]|x] eqn:Hctx; [|vm_compute in Hctx; discriminate].
  exists ntk', m. split; [reflexivity|].
  exact (seeded_nodes ([] : xnet.network) ntk' 1 [1; 0; 2; 3]%nat four_leaves m 3 Hctx).
Defined.

(** ** What a query leaves of the network *)

Section preservation.

Context {Ntk signal env : Type} {net : Network Ntk signal}.
Context {wide : kitty.wide_extension}.
Variable valid : Ntk → signal → Prop.
Variable sem : Ntk → signal → env → bool.
Hypothesis laws : network_laws valid sem.

(** The seeding keeps the signals of the network. *)
Lemma query_context_extends (ntk ntk' : Ntk) (phase : N) (perm : list nat)
    (leaves : list signal) (m : gmap nat signal) :
  Forall (valid ntk) leaves →
  query_context ntk phase perm leaves = Returned (ntk', m) →
  extends valid sem ntk ntk'.
Proof.
  intros Hleaves Hctx.
  apply query_context_inv in Hctx as (Hlen & Hchain).
  destruct Hchain as (p0 & p1 & p2 & p3 & s0 & s1 & s2 & s3 & v0 & v1 & v2 & v3
    & ntk1 & ntk2 & ntk3 & _ & _ & _ & _ & Hs0 & Hs1 & Hs2 & Hs3
    & Hv0 & Hv1 & Hv2 & Hv3 & _).
  assert (Hpis : ∀ p s,
    (leaves ++ replicate (4 - length leaves) (get_constant ntk false)) !! p = Some s →
    valid ntk s).
  { intros p s Hs. apply list_elem_of_lookup_2 in Hs.
    apply elem_of_app in Hs as [Hs|Hs].
    - rewrite Forall_forall in Hleaves. by apply Hleaves.
    - apply elem_of_replicate in Hs as [-> _]. apply (constant_valid _ _ laws). }
  destruct (seed_step valid sem laws _ _ _ ntk ntk ntk1
              (extends_refl valid sem ntk) (Hpis _ _ Hs0) Hv0) as (He1 & _).
  destruct (seed_step valid sem laws _ _ _ ntk ntk1 ntk2 He1 (Hpis _ _ Hs1) Hv1)
    as (He2 & _).
  destruct (seed_step valid sem laws _ _ _ ntk ntk2 ntk3 He2 (Hpis _ _ Hs2) Hv2)
    as (He3 & _).
  by destruct (seed_step valid sem laws _ _ _ ntk ntk3 ntk' He3 (Hpis _ _ Hs3) Hv3)
    as (He4 & _).
Qed.

(** The loop over the candidates keeps the signals of the network. *)
Lemma run_candidates_extends {A : Type} (E : engine) (inputs : env → N)
    (fn : Ntk → signal → A → bool * A) (phase : N) (cands : list db.signal)
    (st : Ntk * gmap nat signal) (a : A) (calls : list (signal * bool))
    (r : Ntk * A * list (signal * bool)) :
  (∀ e, inputs e < 16) → db.topological (_db E) →
  context_sound valid sem (_db E) inputs st →
  run_candidates E fn phase cands st a calls = Returned r →
  extends valid sem st.1 r.1.1.
Proof.
  intros Hlt Htopo. revert st a calls.
  induction cands as [|cand rest IH]; intros st a calls Hctx Hrun.
  - injection Hrun as <-. apply extends_refl.
  - cbn [run_candidates] in Hrun.
    destruct (copy_db_entry E (db.size (_db E)) (db.get_node cand) st)
      as [[f [ntk1 m1]]|] eqn:Hcopy; [|done].
    destruct (complement_if (xorb (db.is_complemented cand) (bit_at phase 4)) f ntk1)
      as [out ntk2] eqn:Hout.
    destruct (copy_db_entry_sound valid sem laws E inputs Hlt Htopo _ _ _ _ _ Hcopy Hctx)
      as (Hctx1 & Hext1 & Hvf & _).
    cbn [fst snd] in *.
    destruct (complement_if_law valid sem laws _ _ _ _ _ Hout Hvf) as (Hext2 & _ & _).
    pose proof (extends_trans valid sem _ _ _ Hext1 Hext2) as Hext.
    destruct (fn ntk2 out a) as [[|] a'].
    + apply (extends_trans valid sem _ _ _ Hext).
      exact (IH (ntk2, m1) a' _
               (context_sound_extends valid sem _ _ _ _ _ Hext2 Hctx1) Hrun).
    + by injection Hrun as <-.
Qed.

(** X2. A query keeps the network: on a constructed engine over a
    library with four primary inputs, every signal that was valid in the
    network before the query is valid in the resulting network and
    computes the same function, whatever the callback accepts. *)
Theorem query_keeps_existing_signals {A : Type} (tbl : N → kitty.npn_config)
    (header : N) (body : list N) (E : engine) (ntk : Ntk)
    (f : kitty.dynamic_truth_table) (leaves : list signal)
    (fn : Ntk → signal → A → bool * A) (a : A)
    (r : Ntk * A * list (signal * bool)) (s : signal) :
  make_engine tbl (header :: body) = Some E →
  N.land header 0xFF = 4 →
  Forall (valid ntk) leaves →
  operator E ntk f leaves fn a = Returned r →
  valid ntk s →
  valid r.1.1 s ∧ ∀ e, sem r.1.1 s e = sem ntk s e.
Proof.
  intros HE Hpis Hleaves Hop. revert s. change (extends valid sem ntk r.1.1).
  destruct (make_engine_inv _ _ _ HE) as (d & Hdec & ->).
  destruct (decode_spec _ _ _ Hdec) as (Htopo & gs & Hd & Hgs).
  rewrite Hpis in Hd. change (N.to_nat 4) with 4%nat in Hd.
  cbn [seq fmap list_fmap app] in Hd.
  unfold operator in Hop. cbn [_repr _repr_to_signal] in Hop.
  destruct (kitty.extend_to4 f) as [t|]; [|done].
  destruct (tbl t) as [[repr phase] perm].
  destruct (classify tbl d !! repr) as [cands|];
    [|injection Hop as <-; apply extends_refl].
  destruct (query_context ntk phase perm leaves) as [[ntk' m]|] eqn:Hctx; [|done].
  destruct (query_context_sound valid sem laws d gs ntk ntk' phase perm leaves m
              Htopo Hd Hgs Hleaves Hctx) as (inputs & Hlt & _ & _ & Hsound).
  apply (extends_trans valid sem _ ntk' _).
  - by eapply query_context_extends.
  - exact (run_candidates_extends (mk_engine tbl (classify tbl d) d) inputs
             fn phase cands (ntk', m) a [] r Hlt Htopo Hsound Hop).
Qed.

(** X8. What a copy computes: in a context that agrees with the
    simulation of the library, the signal that [copy_db_entry] returns
    for a node is a signal of the resulting network that computes the
    simulated table of the node at the inputs of the context; the copy
    keeps the signals of the network, and the context stays in agreement
    with the simulation. *)
Theorem copy_computes_node (E : engine) (inputs : env → N) (fuel n : nat)
    (st st' : Ntk * gmap nat signal) (r : signal) :
  db.topological (_db E) →
  (∀ e, inputs e < 16) →
  context_sound valid sem (_db E) inputs st →
  copy_db_entry E fuel n st = Some (r, st') →
  valid st'.1 r ∧
  (∀ e, sem st'.1 r e = N.testbit (db.simulate_nodes (_db E) !!! n) (inputs e)) ∧
  extends valid sem st.1 st'.1 ∧
  context_sound valid sem (_db E) inputs st'.
Proof.
  intros Htopo Hlt Hctx Hcopy.
  destruct (copy_db_entry_sound valid sem laws E inputs Hlt Htopo _ _ _ _ _ Hcopy Hctx)
    as (Hctx' & Hext & Hv & Hs).
  split; [exact Hv|]. split; [exact Hs|]. by split.
Qed.

End preservation.

Lemma query_keeps_existing_signals_witness :
  ∃ r, operator (wide := stops_when_wider) library_engine ([] : xnet.network)
         (kitty.mk_dtt 4 0x0287) four_leaves accept_all 0%nat = Returned r ∧
       ∀ e : nat → bool,
         xnet.eval (xnet.and_gate (xnet.leaf 0) (xnet.leaf 1)) e
         = xnet.eval (xnet.and_gate (xnet.leaf 0) (xnet.leaf 1)) e.
Proof.
  destruct (operator (wide := stops_when_wider) library_engine ([] : xnet.network)
              (kitty.mk_dtt 4 0x0287) four_leaves accept_all 0%nat) as [r|x] eqn:Hr;
    [|vm_compute in Hr; discriminate].
  exists r. split; [reflexivity|].
  refine (proj2 (query_keeps_existing_signals (λ _ _, True) (λ _ s e, xnet.eval s e)
            xnet_laws kitty.exact_npn_canonization (hd 0 subgraphs) (tail subgraphs)
            library_engine [] (kitty.mk_dtt 4 0x0287) four_leaves accept_all 0%nat
            r (xnet.and_gate (xnet.leaf 0) (xnet.leaf 1)) library_built _ _ Hr I)).
  - vm_compute. reflexivity.
  - by repeat constructor.
Defined.

Lemma library_inputs :
  ∃ gs, _db library_engine
          = db.Const :: db.Pi 0 :: db.Pi 1 :: db.Pi 2 :: db.Pi 3 :: gs ∧
        Forall (λ nd, db.fanins nd ≠ []) gs.
Proof.
  destruct (make_engine_inv _ _ _ library_built) as (d & Hdec & HE).
  destruct (decode_spec (hd 0 subgraphs) (tail subgraphs) d Hdec) as (_ & gs & Hd & Hgs).
  exists gs. split; [|done]. rewrite HE. cbn [_db]. exact Hd.
Qed.

Lemma copy_computes_node_witness :
  ∃ (inputs : (nat → bool) → N) st r st',
    query_context ([] : xnet.network) 1 [1; 0; 2; 3]%nat four_leaves = Returned st ∧
    copy_db_entry library_engine 1785 690 st = Some (r, st') ∧
    ∀ e, xnet.eval r e
         = N.testbit (db.simulate_nodes (_db library_engine) !!! 690%nat) (inputs e).
Proof.
  pose proof (make_engine_topological _ _ _ library_built) as Htopo.
  assert (Hsize : length (_db library_engine) = 1785%nat) by (vm_compute; reflexivity).
  destruct library_inputs as (gs & Hd & Hgs).
  destruct (query_context ([] : xnet.network) 1 [1; 0; 2; 3]%nat four_leaves)
    as [[ntk m]|x] eqn:Hctx; [|vm_compute in Hctx; discriminate].
  destruct (query_context_sound (λ _ _, True) (λ _ s e, xnet.eval s e) xnet_laws
              (_db library_engine) gs [] ntk 1 [1; 0; 2; 3]%nat four_leaves m
              Htopo Hd Hgs) as (inputs & Hlt & _ & _ & Hsound);
    [by repeat constructor|exact Hctx|].
  destruct (copy_db_entry_returns library_engine 1785 690 (ntk, m))
    as [[r st'] Hcopy]; [done|lia|pose proof (level_le _ 690 Htopo); lia|].
  exists inputs, (ntk, m), r, st'. split; [reflexivity|]. split; [exact Hcopy|].
  exact (proj1 (proj2 (copy_computes_node (λ _ _, True) (λ _ s e, xnet.eval s e)
           xnet_laws library_engine inputs 1785 690 (ntk, m) st' r
           Htopo Hlt Hsound Hcopy))).
Defined.

(** ** The engine that the constructor builds *)

Lemma transforms_permute :
  forallb (λ c : N * list nat * list nat, perm_ok c.1.2) kitty.input_transforms = true.
Proof. vm_compute. reflexivity. Qed.

(** The permutation that the canonizer returns names four of the
    positions 0..3. *)
Lemma exact_npn_canonization_perm (t : N) :
  perm_ok (kitty.exact_npn_canonization t).2 = true.
Proof.
  unfold kitty.exact_npn_canonization.
  assert (Hfold : ∀ l (best : list bool * N * list nat),
    forallb (λ c : N * list nat * list nat, perm_ok c.1.2) l = true →
    perm_ok best.2 = true →
    perm_ok (fold_left (λ best '(phase, perm, high),
                          kitty.try_transform (kitty.tt_bools t) true phase perm high
                            (kitty.try_transform (kitty.tt_bools t) false phase perm high best))
                       l best).2 = true).
  { induction l as [|[[ph pm] hi] l IH]; intros best Hl Hbest; [done|].
    cbn [forallb] in Hl. apply andb_prop in Hl as [Hpm Hl]. cbn [fst snd] in Hpm.
    cbn [fold_left]. apply IH; [done|].
    assert (Hstep : ∀ ng (b : list bool * N * list nat), perm_ok b.2 = true →
      perm_ok (kitty.try_transform (kitty.tt_bools t) ng ph pm hi b).2 = true).
    { intros ng b Hb. unfold kitty.try_transform.
      by destruct (kitty.candidate_below _ _ _ _). }
    by apply Hstep, Hstep. }
  specialize (Hfold kitty.input_transforms
                (reverse (kitty.tt_bools t), 0, [0; 1; 2; 3]%nat)
                transforms_permute eq_refl).
  by destruct (fold_left _ _ _) as [[bits ph] pm].
Qed.

Lemma perm_ok_lookup (perm : list nat) (i : nat) :
  perm_ok perm = true → (i < 4)%nat → ∃ p, perm !! i = Some p ∧ (p < 4)%nat.
Proof.
  unfold perm_ok. cbn [seq forallb]. rewrite !andb_true_iff.
  intros (H0 & H1 & H2 & H3 & _) Hi.
  destruct i as [|[|[|[|i]]]]; [| | | |lia].
  - destruct (perm !! 0%nat) as [p|]; [|done]. exists p. split; [done|].
    by apply Nat.ltb_lt.
  - destruct (perm !! 1%nat) as [p|]; [|done]. exists p. split; [done|].
    by apply Nat.ltb_lt.
  - destruct (perm !! 2%nat) as [p|]; [|done]. exists p. split; [done|].
    by apply Nat.ltb_lt.
  - destruct (perm !! 3%nat) as [p|]; [|done]. exists p. split; [done|].
    by apply Nat.ltb_lt.
Qed.

(** X12. The constructor and the query together: the constructor,
    which runs [build_classes] and then [build_db] on the library of the
    source, gives an engine, and on this engine the query returns for
    every function of at most four inputs with at most four leaves,
    whatever the network and the callback: the permutations in the table
    name positions of the leaf buffer, the library is in topological
    order, and the candidates are nodes of the library. *)
Theorem constructed_engine_answers {Ntk signal A : Type} {net : Network Ntk signal}
    {wide : kitty.wide_extension} (ntk : Ntk) (f : kitty.dynamic_truth_table)
    (leaves : list signal) (fn : Ntk → signal → A → bool * A) (a : A) :
  (kitty.num_vars f ≤ 4)%nat →
  (length leaves ≤ 4)%nat →
  ∃ E r, xag_npn_resynthesis = Some E ∧ operator E ntk f leaves fn a = Returned r.
Proof.
  intros Hwidth Hlen.
  destruct build_classes_spec as (tbl & Hbuild & Htbl).
  destruct (build_db_inv _ _ _ _ library_index) as [Hdec _].
  remember (_db library_engine) as d eqn:Hd. clear Hd.
  pose proof (decode_topological _ _ Hdec) as Htopo.
  assert (Ht : ∃ t, kitty.extend_to4 f = Some t ∧ t < 65536).
  { unfold kitty.extend_to4. rewrite decide_True by done.
    eexists. split; [reflexivity|]. apply bits_to_N_assignments_lt. }
  destruct Ht as (t & Ht & Hlt).
  pose proof (exact_npn_canonization_perm t) as Hperm.
  rewrite <- (Htbl t Hlt) in Hperm.
  exists (mk_engine tbl (classify tbl d) d).
  assert (HE : xag_npn_resynthesis = Some (mk_engine tbl (classify tbl d) d)).
  { unfold xag_npn_resynthesis. rewrite Hbuild. cbn [mbind option_bind].
    unfold make_engine, build_db. rewrite Hdec. reflexivity. }
  unfold operator. cbn [_repr _repr_to_signal]. rewrite Ht.
  destruct (tbl t) as [[repr phase] perm]. cbn [snd] in Hperm.
  destruct (classify tbl d !! repr) as [cands|] eqn:Hcands;
    [|eexists; split; [exact HE|reflexivity]].
  destruct (query_context_returns ntk phase perm leaves Hlen) as [st ->];
    [intros i Hi; by apply perm_ok_lookup|].
  destruct (run_candidates_returns (mk_engine tbl (classify tbl d) d)
              fn phase cands st a []) as [r Hr];
    [exact Htopo| |exists r; split; [exact HE|exact Hr]].
  intros cand Hin. by destruct (classify_sound tbl d repr cands cand Hcands Hin) as (? & _).
Qed.

Lemma constructed_engine_answers_witness :
  ∃ E r, xag_npn_resynthesis = Some E ∧
         operator (wide := stops_when_wider) E ([] : xnet.network)
           (kitty.mk_dtt 3 0xe8) [xnet.leaf 0; xnet.leaf 1; xnet.leaf 2]
           accept_all 0%nat = Returned r.
Proof.
  apply (constructed_engine_answers (wide := stops_when_wider)
           ([] : xnet.network) (kitty.mk_dtt 3 0xe8)
           [xnet.leaf 0; xnet.leaf 1; xnet.leaf 2] accept_all 0%nat).
  - simpl. lia.
  - simpl. lia.
Defined.
